(** * redsea: the per-channel orchestration layer (src/channel.cc)

    A shallow embedding of [redsea::Channel] and the properties of its
    member functions [processBit], [processBits], [processGroup] and
    [flush].

    The translation unit channel.cc is the only one modelled line by line.
    The classes it drives (BlockStream, Station, CachedPI, RunningAverage)
    are declared in other headers; they enter the development as the
    operations of the class [Externals], so that every general theorem holds
    for any implementation of them.  Test doubles that record the calls they
    receive are provided for running the model on concrete inputs. *)

From Stdlib Require Import ZArith List Bool String Ascii Lia QArith.
From Stdlib Require Import Floats.SpecFloat.
Import ListNotations.
Local Open Scope Z_scope.

(** ** IEEE 754 arithmetic of the two C++ floating point types *)

(** [float] is binary32, [double] is binary64.  Both are [spec_float] values,
    operated on with the precision and exponent range of their format. *)
Module F32.
Definition prec : Z := 24.
Definition emax : Z := 128.
Definition of_Z (n : Z) : spec_float := binary_normalize prec emax n 0 false.
Definition div (x y : spec_float) : spec_float := SFdiv prec emax x y.
Definition mul (x y : spec_float) : spec_float := SFmul prec emax x y.
End F32.

Module F64.
Definition prec : Z := 53.
Definition emax : Z := 1024.
Definition of_Z (n : Z) : spec_float := binary_normalize prec emax n 0 false.
Definition div (x y : spec_float) : spec_float := SFdiv prec emax x y.
Definition mul (x y : spec_float) : spec_float := SFmul prec emax x y.
(** The literal [1187.5], that is 2375 / 2. *)
Definition c1187_5 : spec_float := binary_normalize prec emax 2375 (-1) false.
(** The literal [1e3]. *)
Definition c1e3 : spec_float := of_Z 1000.
(** [static_cast<int>(x)]: the fractional part is discarded (rounding towards
    zero).  Values outside the range of [int] are undefined behaviour in C++
    and are not bounded here. *)
Definition to_int (x : spec_float) : Z :=
  match x with
  | S754_finite s m e =>
      let mag := match e with
                 | Z0 => Zpos m
                 | Zpos _ => Z.shiftl (Zpos m) e
                 | Zneg p => Z.shiftr (Zpos m) (Zpos p)
                 end in
      if s then - mag else mag
  | _ => 0
  end.
End F64.

(** ** Data *)

(** [std::chrono::time_point<std::chrono::system_clock>]: a signed count of
    clock ticks since the epoch. *)
Definition time_point : Type := Z.

(** [redsea::OutputType].  channel.cc only compares against [Hex]; every
    other output type takes the Station branch. *)
Inductive OutputType : Type := Hex | JSON.

Definition OutputType_eqb (a b : OutputType) : bool :=
  match a, b with
  | Hex, Hex | JSON, JSON => true
  | _, _ => false
  end.

(** The members of [redsea::Options] that channel.cc reads. *)
Record Options : Type := mkOptions {
  timestamp : bool;
  bler : bool;
  output_type : OutputType;
  time_format : string
}.

(** Modelled from the spec: the Group class (declared in a header that is
    not part of src/).  "A fixed-size structure holding up to 4 data blocks,
    an error count (0-4, one per block), optionally a station identity code,
    an optional receive timestamp, and an optional error-rate annotation";
    a group is empty when it "carries no usable blocks". *)
Record Group : Type := mkGroup {
  blocks : list Z;
  num_errors : Z;
  pi : option Z;
  time_received : option time_point;
  bler_annotation : option spec_float
}.

Definition isEmpty (g : Group) : bool :=
  match blocks g with [] => true | _ :: _ => false end.

Definition hasPI (g : Group) : bool :=
  match pi g with Some _ => true | None => false end.

Definition getPI (g : Group) : Z :=
  match pi g with Some p => p | None => 0 end.

Definition hasTime (g : Group) : bool :=
  match time_received g with Some _ => true | None => false end.

Definition getRxTime (g : Group) : time_point :=
  match time_received g with Some t => t | None => 0 end.

Definition getNumErrors (g : Group) : Z := num_errors g.

Definition setTime (g : Group) (t : time_point) : Group :=
  mkGroup (blocks g) (num_errors g) (pi g) (Some t) (bler_annotation g).

Definition setAverageBLER (g : Group) (percent : spec_float) : Group :=
  mkGroup (blocks g) (num_errors g) (pi g) (time_received g) (Some percent).

(** [BitBuffer]: the bits of one chunk and the instant at which the chunk
    was received. *)
Record BitBuffer : Type := mkBitBuffer {
  bits : list bool;
  buffer_time_received : time_point
}.

(** A [std::ostream] is modelled by the operations performed on it, oldest
    first. *)
Inductive StreamOp : Type :=
  | Put (s : string)
  | Flush.

Definition ostream : Type := list StreamOp.

(** The characters written so far. *)
Fixpoint written (o : ostream) : string :=
  match o with
  | [] => EmptyString
  | Put s :: o' => (s ++ written o')%string
  | Flush :: o' => written o'
  end.

Definition newline : string := String (ascii_of_nat 10) EmptyString.

(** [CachedPI::Result] *)
Inductive Result : Type := ChangeConfirmed | NoChange | SpuriousChange.

(** ** The collaborators of a Channel *)

Class Externals : Type := {
  (** BlockStream, the group assembler *)
  BlockStream : Type;
  BlockStream_new : Options -> BlockStream;
  pushBit : BlockStream -> bool -> BlockStream;
  hasGroupReady : BlockStream -> bool;
  popGroup : BlockStream -> Group * BlockStream;
  flushCurrentGroup : BlockStream -> Group * BlockStream;
  (** Station, the per-station interpreter, with its two constructors *)
  Station : Type;
  Station_new : Options -> Z -> Station;
  Station_new_pi : Options -> Z -> Z -> Station;
  updateAndPrint : Station -> Group -> ostream -> Station * ostream;
  (** CachedPI, the identity confirmation tracker *)
  CachedPI : Type;
  CachedPI_new : CachedPI;
  CachedPI_update : CachedPI -> Z -> Result * CachedPI;
  CachedPI_get : CachedPI -> Z;
  CachedPI_reset : CachedPI -> CachedPI;
  (** RunningAverage, the error-rate averager *)
  RunningAverage : Type;
  RunningAverage_new : RunningAverage;
  push : RunningAverage -> spec_float -> RunningAverage;
  getAverage : RunningAverage -> spec_float;
  (** text written by [Group::printHex] and returned by
      [getTimePointString] *)
  printHex : Group -> string;
  getTimePointString : time_point -> string -> string;
  (** the value returned by the n-th call of
      [std::chrono::system_clock::now()] *)
  system_clock_now : nat -> time_point;
  (** ticks of [system_clock] in one millisecond *)
  ticks_per_ms : Z
}.

(** ** The Channel *)

Section Model.
Context {E : Externals}.

(** The data members of [Channel], the contents of the stream that
    [output_stream_] refers to, and the number of times the system clock has
    been read. *)
Record Channel : Type := mkChannel {
  options_ : Options;
  which_channel_ : Z;
  output_stream_ : ostream;
  block_stream_ : BlockStream;
  station_ : Station;
  cached_pi_ : CachedPI;
  bler_average_ : RunningAverage;
  last_group_rx_time_ : time_point;
  clock_reads : nat
}.

Definition set_output_stream (c : Channel) (o : ostream) : Channel :=
  mkChannel (options_ c) (which_channel_ c) o (block_stream_ c) (station_ c)
            (cached_pi_ c) (bler_average_ c) (last_group_rx_time_ c)
            (clock_reads c).

Definition set_block_stream (c : Channel) (b : BlockStream) : Channel :=
  mkChannel (options_ c) (which_channel_ c) (output_stream_ c) b (station_ c)
            (cached_pi_ c) (bler_average_ c) (last_group_rx_time_ c)
            (clock_reads c).

Definition set_station (c : Channel) (s : Station) : Channel :=
  mkChannel (options_ c) (which_channel_ c) (output_stream_ c)
            (block_stream_ c) s (cached_pi_ c) (bler_average_ c)
            (last_group_rx_time_ c) (clock_reads c).

Definition set_cached_pi (c : Channel) (p : CachedPI) : Channel :=
  mkChannel (options_ c) (which_channel_ c) (output_stream_ c)
            (block_stream_ c) (station_ c) p (bler_average_ c)
            (last_group_rx_time_ c) (clock_reads c).

Definition set_bler_average (c : Channel) (a : RunningAverage) : Channel :=
  mkChannel (options_ c) (which_channel_ c) (output_stream_ c)
            (block_stream_ c) (station_ c) (cached_pi_ c) a
            (last_group_rx_time_ c) (clock_reads c).

Definition set_last_group_rx_time (c : Channel) (t : time_point) : Channel :=
  mkChannel (options_ c) (which_channel_ c) (output_stream_ c)
            (block_stream_ c) (station_ c) (cached_pi_ c) (bler_average_ c)
            t (clock_reads c).

Definition tick_clock (c : Channel) : Channel :=
  mkChannel (options_ c) (which_channel_ c) (output_stream_ c)
            (block_stream_ c) (station_ c) (cached_pi_ c) (bler_average_ c)
            (last_group_rx_time_ c) (S (clock_reads c)).

(** [Channel::Channel(options, which_channel, output_stream)] *)
Definition Channel_new (options : Options) (which_channel : Z)
    (output_stream : ostream) : Channel :=
  mkChannel options which_channel output_stream (BlockStream_new options)
            (Station_new options which_channel) CachedPI_new
            RunningAverage_new 0 O.

(** [Channel::Channel(options, output_stream, pi)], used for testing.
    [which_channel_] is not in the initialiser list; it is taken to be 0,
    the index the constructor passes to Station. *)
Definition Channel_new_pi (options : Options) (output_stream : ostream)
    (pi : Z) : Channel :=
  let c := mkChannel options 0 output_stream (BlockStream_new options)
                     (Station_new_pi options 0 pi) CachedPI_new
                     RunningAverage_new 0 O in
  let c := set_cached_pi c (snd (CachedPI_update (cached_pi_ c) pi)) in
  set_cached_pi c (snd (CachedPI_update (cached_pi_ c) pi)).

(** *** processGroup, one definition per statement of its body *)

(** Lines 87-97: stamp a group that has no time yet. *)
Definition stampTime (group : Group) (c : Channel) : Group * Channel :=
  if timestamp (options_ c) && negb (hasTime group) then
    let now := system_clock_now (clock_reads c) in
    let c := tick_clock c in
    let group := setTime group now in
    let group :=
      if now <? last_group_rx_time_ c
      then setTime group (last_group_rx_time_ c)
      else group in
    (group, set_last_group_rx_time c now)
  else (group, c).

(** Lines 99-102: error-rate annotation. *)
Definition averageBLER (group : Group) (c : Channel) : Group * Channel :=
  if bler (options_ c) then
    let c := set_bler_average c
               (push (bler_average_ c)
                     (F32.div (F32.of_Z (getNumErrors group)) (F32.of_Z 4))) in
    (setAverageBLER group
       (F32.mul (F32.of_Z 100) (getAverage (bler_average_ c))), c)
  else (group, c).

(** Lines 107-117: confirmation of the PI code. *)
Definition confirmPI (group : Group) (c : Channel) : Channel :=
  if hasPI group then
    let (pi_status, cached) := CachedPI_update (cached_pi_ c) (getPI group) in
    let c := set_cached_pi c cached in
    match pi_status with
    | ChangeConfirmed =>
        set_station c
          (Station_new_pi (options_ c) (which_channel_ c)
                          (CachedPI_get (cached_pi_ c)))
    | SpuriousChange => c
    | NoChange => c
    end
  else c.

(** Lines 119-128: output. *)
Definition route (group : Group) (c : Channel) : Channel :=
  if OutputType_eqb (output_type (options_ c)) Hex then
    if negb (isEmpty group) then
      let c := set_output_stream c
                 (output_stream_ c ++ [Put (printHex group)]) in
      let c :=
        if timestamp (options_ c)
        then set_output_stream c
               (output_stream_ c ++
                [Put " "%string;
                 Put (getTimePointString (getRxTime group)
                                         (time_format (options_ c)))])
        else c in
      set_output_stream c (output_stream_ c ++ [Put newline; Flush])
    else c
  else
    let (station, out) :=
      updateAndPrint (station_ c) group (output_stream_ c) in
    set_output_stream (set_station c station) out.

(** [Channel::processGroup] *)
Definition processGroup (group : Group) (c : Channel) : Channel :=
  let (group, c) := stampTime group c in
  let (group, c) := averageBLER group c in
  let c := confirmPI group c in
  route group c.

(** The value of the local [group] when the output statement is reached. *)
Definition routedGroup (group : Group) (c : Channel) : Group :=
  let (group, c) := stampTime group c in
  fst (averageBLER group c).

(** The channel when the output statement is reached. *)
Definition preRoute (group : Group) (c : Channel) : Channel :=
  let (group, c) := stampTime group c in
  let (group, c) := averageBLER group c in
  confirmPI group c.

(** The channel when the PI statement (line 107) is reached. *)
Definition preConfirm (group : Group) (c : Channel) : Channel :=
  let (group, c) := stampTime group c in
  snd (averageBLER group c).

(** [Channel::processBit] *)
Definition processBit (bit : bool) (c : Channel) : Channel :=
  let c := set_block_stream c (pushBit (block_stream_ c) bit) in
  if hasGroupReady (block_stream_ c) then
    let (group, bs) := popGroup (block_stream_ c) in
    processGroup group (set_block_stream c bs)
  else c.

(** *** processBits *)

(** [static_cast<int>(static_cast<double>(n) / 1187.5 * 1e3)] *)
Definition backdate_ms (n : Z) : Z :=
  F64.to_int (F64.mul (F64.div (F64.of_Z n) F64.c1187_5) F64.c1e3).

(** Lines 67-69: the receive time computed from the buffer time stamp and
    the bit offset. *)
Definition group_time (buffer : BitBuffer) (i_bit : nat) : time_point :=
  buffer_time_received buffer
  - backdate_ms (Z.of_nat (List.length (bits buffer)) - 1 - Z.of_nat i_bit)
    * ticks_per_ms.

(** Lines 73-75 *)
Definition clamp_time (t last : time_point) : time_point :=
  if t <? last then last else t.

(** One iteration of the loop, for the bit at index [i_bit]. *)
Definition processBits_iter (buffer : BitBuffer) (i_bit : nat) (bit : bool)
    (c : Channel) : Channel :=
  let c := set_block_stream c (pushBit (block_stream_ c) bit) in
  if hasGroupReady (block_stream_ c) then
    let (group, bs) := popGroup (block_stream_ c) in
    let c := set_block_stream c bs in
    let t := clamp_time (group_time buffer i_bit) (last_group_rx_time_ c) in
    let c := processGroup (setTime group t) c in
    set_last_group_rx_time c t
  else c.

Fixpoint processBits_loop (buffer : BitBuffer) (i_bit : nat)
    (rest : list bool) (c : Channel) : Channel :=
  match rest with
  | [] => c
  | bit :: rest' =>
      processBits_loop buffer (S i_bit) rest'
                       (processBits_iter buffer i_bit bit c)
  end.

(** [Channel::processBits] *)
Definition processBits (buffer : BitBuffer) (c : Channel) : Channel :=
  processBits_loop buffer O (bits buffer) c.

(** [Channel::flush] *)
Definition flush (c : Channel) : Channel :=
  let (last_group, bs) := flushCurrentGroup (block_stream_ c) in
  let c := set_block_stream c bs in
  if negb (isEmpty last_group) then processGroup last_group c else c.

(** [Channel::resetPI] *)
Definition resetPI (c : Channel) : Channel :=
  set_cached_pi c (CachedPI_reset (cached_pi_ c)).

(** *** Runs of processGroup *)

Fixpoint processGroups (groups : list Group) (c : Channel) : Channel :=
  match groups with
  | [] => c
  | g :: rest => processGroups rest (processGroup g c)
  end.

(** The receive times carried by the groups of a run when they reach the
    output statement, in order. *)
Fixpoint emittedTimes (groups : list Group) (c : Channel) : list time_point :=
  match groups with
  | [] => []
  | g :: rest =>
      getRxTime (routedGroup g c) :: emittedTimes rest (processGroup g c)
  end.

(** The groups that one call of processBits hands to processGroup, in
    order: for each, the receive time computed at lines 67-69 and the
    receive time the group carries when it reaches the output statement. *)
Fixpoint bitsEmitted (buffer : BitBuffer) (i_bit : nat)
    (rest : list bool) (c : Channel) : list (time_point * time_point) :=
  match rest with
  | [] => []
  | bit :: rest' =>
      let bs := pushBit (block_stream_ c) bit in
      let tl := bitsEmitted buffer (S i_bit) rest'
                            (processBits_iter buffer i_bit bit c) in
      if hasGroupReady bs then
        (group_time buffer i_bit,
         getRxTime
           (routedGroup
              (setTime (fst (popGroup bs))
                 (clamp_time (group_time buffer i_bit)
                             (last_group_rx_time_ c)))
              (set_block_stream c (snd (popGroup bs))))) :: tl
      else tl
  end.

(** Successive calls of processBits. *)
Fixpoint processBuffers (buffers : list BitBuffer) (c : Channel) : Channel :=
  match buffers with
  | [] => c
  | b :: rest => processBuffers rest (processBits b c)
  end.

Fixpoint buffersEmitted (buffers : list BitBuffer) (c : Channel)
    : list (time_point * time_point) :=
  match buffers with
  | [] => []
  | b :: rest =>
      bitsEmitted b O (bits b) c ++ buffersEmitted rest (processBits b c)
  end.

(** A tracker after it has been fed the given codes, oldest first. *)
Fixpoint observeAll (codes : list Z) (p : CachedPI) : CachedPI :=
  match codes with
  | [] => p
  | code :: rest => observeAll rest (snd (CachedPI_update p code))
  end.

(** A receive time in seconds since the epoch. *)
Definition seconds (t : time_point) : Q :=
  inject_Z t / inject_Z (1000 * ticks_per_ms).

(** The instant T - (N - 1 - i) / 1187.5 s, in seconds. *)
Definition backdated_seconds (buffer : BitBuffer) (i_bit : nat) : Q :=
  seconds (buffer_time_received buffer)
  - inject_Z (Z.of_nat (List.length (bits buffer)) - 1 - Z.of_nat i_bit)
    / (2375 # 2).

End Model.

Fixpoint nondecreasing (l : list time_point) : bool :=
  match l with
  | a :: ((b :: _) as tl) => (a <=? b) && nondecreasing tl
  | _ => true
  end.

(** Every carried time is the computed time clamped to the carried time of
    the group before it, the first one to [w]. *)
Fixpoint clamped_chain (w : time_point) (l : list (time_point * time_point))
    : Prop :=
  match l with
  | [] => True
  | (t, e) :: l' => e = clamp_time t w /\ clamped_chain e l'
  end.

(** The carried time of the last group of [l], or [w] when there is none. *)
Definition last_carried (w : time_point) (l : list (time_point * time_point))
    : time_point :=
  last (map snd l) w.

(** [backdate_ms] against the quotient of 16 k by 19, for the [n] values of
    k from [k] on. *)
Fixpoint backdate_floor_from (k : Z) (n : nat) : bool :=
  match n with
  | O => true
  | S n' => (backdate_ms k =? 16 * k / 19) && backdate_floor_from (k + 1) n'
  end.

(** The number of bit offsets for which the comparison is run. *)
Definition floor_range : nat := Z.to_nat 19019.

(** ** Test doubles *)

Module Doubles.

(** An assembler that follows a script: the groups that become ready at each
    pushed bit, and the group that a flush returns. *)
Record ScriptedStream : Type := mkScripted {
  script : list (list Group);
  ready : list Group;
  partial : Group
}.

Definition empty_group : Group := mkGroup [] 0 None None None.

Definition scripted_pushBit (s : ScriptedStream) (bit : bool)
    : ScriptedStream :=
  match script s with
  | [] => s
  | gs :: rest => mkScripted rest (ready s ++ gs) (partial s)
  end.

Definition scripted_hasGroupReady (s : ScriptedStream) : bool :=
  match ready s with [] => false | _ :: _ => true end.

Definition scripted_popGroup (s : ScriptedStream) : Group * ScriptedStream :=
  match ready s with
  | [] => (empty_group, s)
  | g :: q => (g, mkScripted (script s) q (partial s))
  end.

Definition scripted_flush (s : ScriptedStream) : Group * ScriptedStream :=
  (partial s, mkScripted (script s) (ready s) empty_group).

(** A station that records how it was constructed and the groups it was
    given. *)
Record RecordingStation : Type := mkStation {
  seed : option Z;
  seen : list Group
}.

Definition recording_update (st : RecordingStation) (g : Group) (o : ostream)
    : RecordingStation * ostream :=
  (mkStation (seed st) (seen st ++ [g]), o ++ [Put "{}"%string; Put newline]).

(** A tracker that follows section 4.1 of the specification and records the
    codes it was fed. *)
Record RecordingPI : Type := mkPI {
  confirmed : option Z;
  pending : option Z;
  observed : list Z
}.

Definition is_code (o : option Z) (code : Z) : bool :=
  match o with Some x => x =? code | None => false end.

Definition recording_pi_update (p : RecordingPI) (code : Z)
    : Result * RecordingPI :=
  let log := observed p ++ [code] in
  if is_code (confirmed p) code then (NoChange, mkPI (confirmed p) None log)
  else if is_code (pending p) code
       then (ChangeConfirmed, mkPI (Some code) None log)
       else (SpuriousChange, mkPI (confirmed p) (Some code) log).

Definition recording_pi_get (p : RecordingPI) : Z :=
  match confirmed p with Some x => x | None => 0 end.

(** An averager that records the pushed values and reports the latest. *)
Definition recording_average (l : list spec_float) : spec_float :=
  last l (F32.of_Z 0).

Definition doubles (script : list (list Group)) (partial : Group)
    (clock : list time_point) : Externals :=
  {| BlockStream := ScriptedStream;
     BlockStream_new := fun _ => mkScripted script [] partial;
     pushBit := scripted_pushBit;
     hasGroupReady := scripted_hasGroupReady;
     popGroup := scripted_popGroup;
     flushCurrentGroup := scripted_flush;
     Station := RecordingStation;
     Station_new := fun _ _ => mkStation None [];
     Station_new_pi := fun _ _ code => mkStation (Some code) [];
     updateAndPrint := recording_update;
     CachedPI := RecordingPI;
     CachedPI_new := mkPI None None [];
     CachedPI_update := recording_pi_update;
     CachedPI_get := recording_pi_get;
     CachedPI_reset := fun _ => mkPI None None [];
     RunningAverage := list spec_float;
     RunningAverage_new := [];
     push := fun l x => l ++ [x];
     getAverage := recording_average;
     printHex := fun _ => "0000 0000 0000 0000"%string;
     getTimePointString := fun _ _ => "<time>"%string;
     system_clock_now := fun n => nth n clock 0;
     ticks_per_ms := 1000000 |}.

(** Receive times of the groups a recording station was given. *)
Definition seen_times (st : RecordingStation) : list time_point :=
  map getRxTime (seen st).

Definition opts (stamp with_bler : bool) (t : OutputType) : Options :=
  mkOptions stamp with_bler t "%c"%string.

(** A group of four received blocks, without receive time. *)
Definition group_a : Group := mkGroup [1; 2; 3; 4] 2 (Some 25000) None None.

(** A group of four received blocks without PI code and receive time. *)
Definition group_b : Group := mkGroup [1; 2; 3; 4] 0 None None None.

(** A group that carries the PI code 222. *)
Definition group_222 : Group := mkGroup [222; 2; 3; 4] 0 (Some 222) None None.

(** A system clock that is set back between its first two readings. *)
Definition E_clock : Externals := doubles [] empty_group [10; 5; 7].

Definition c_clock : Channel (E := E_clock) :=
  Channel_new (opts true false JSON) 0 [].

Definition c_clock_hex : Channel (E := E_clock) :=
  Channel_new (opts true false Hex) 0 [].

Definition c_clock_bler : Channel (E := E_clock) :=
  Channel_new (opts false true Hex) 0 [].

(** An assembler that completes a group at the first of two bits. *)
Definition E_first : Externals := doubles [[group_b]; []] empty_group [].

Definition c_first : Channel (E := E_first) :=
  Channel_new (opts true false JSON) 0 [].

(** Two bits received 5 s after the epoch (a tick is a nanosecond). *)
Definition buffer_two : BitBuffer := mkBitBuffer [true; false] 5000000000.

(** An assembler that completes a group at each bit, fed two buffers of one
    bit each, the second one stamped 4 s before the first. *)
Definition E_each : Externals :=
  doubles [[group_b]; [group_b]] empty_group [].

Definition c_each : Channel (E := E_each) :=
  Channel_new (opts true false JSON) 0 [].

Definition buffers_back : list BitBuffer :=
  [mkBitBuffer [true] 9000000000; mkBitBuffer [true] 5000000000].

(** An assembler in which two groups become ready at the first bit. *)
Definition E_burst : Externals :=
  doubles [[group_a; group_b]] empty_group [].

Definition c_burst : Channel (E := E_burst) :=
  Channel_new (opts false false JSON) 0 [].

(** An assembler whose pending group is [group_b], and one with nothing
    pending. *)
Definition E_pending : Externals := doubles [] group_b [].

Definition c_pending : Channel (E := E_pending) :=
  Channel_new (opts false false JSON) 0 [].

Definition E_idle : Externals := doubles [] empty_group [].

Definition c_idle : Channel (E := E_idle) :=
  Channel_new (opts false false JSON) 0 [].

(** A channel constructed for PI 111 that has seen [group_222] once. *)
Definition c_seeded : Channel (E := E_idle) :=
  processGroup group_222 (Channel_new_pi (opts false false JSON) [] 111).

End Doubles.

(** ** Runs of the channel, and the remaining member functions *)

Section Runs.
Context {E : Externals}.

(** The groups of a run of processGroup as they reach the output
    statement, in order. *)
Fixpoint routedGroups (groups : list Group) (c : Channel) : list Group :=
  match groups with
  | [] => []
  | g :: rest => routedGroup g c :: routedGroups rest (processGroup g c)
  end.

(** The stream operations of lines 121-124 for one group. *)
Definition hexLine (options : Options) (g : Group) : list StreamOp :=
  Put (printHex g) ::
  (if timestamp options
   then [Put " "%string;
         Put (getTimePointString (getRxTime g) (time_format options))]
   else []) ++ [Put newline; Flush].

Definition nonEmpty (g : Group) : bool := negb (isEmpty g).

Definition untimed (g : Group) : bool := negb (hasTime g).

(** The PI codes of the groups that carry one, in order. *)
Definition piCodes (groups : list Group) : list Z :=
  map getPI (filter hasPI groups).

(** The value line 100 pushes for a group. *)
Definition blockErrorRate (g : Group) : spec_float :=
  F32.div (F32.of_Z (getNumErrors g)) (F32.of_Z 4).

(** An averager after the given values have been pushed, oldest first. *)
Definition pushAll (values : list spec_float) (a : RunningAverage)
    : RunningAverage :=
  fold_left push values a.

(** The bits of a buffer given to processBit one by one. *)
Fixpoint processBitList (l : list bool) (c : Channel) : Channel :=
  match l with
  | [] => c
  | bit :: rest => processBitList rest (processBit bit c)
  end.

(** The number of flushes among the operations of a stream. *)
Fixpoint countFlush (o : ostream) : nat :=
  match o with
  | [] => O
  | Put _ :: o' => countFlush o'
  | Flush :: o' => S (countFlush o')
  end.

(** Two channels whose configuration, assembler, tracker and averager are
    the same. *)
Definition samePipeline (c1 c2 : Channel) : Prop :=
  options_ c1 = options_ c2 /\
  block_stream_ c1 = block_stream_ c2 /\
  cached_pi_ c1 = cached_pi_ c2 /\
  bler_average_ c1 = bler_average_ c2.

End Runs.

(** What getSecondsSinceCarrierLost uses beyond [Externals]: the counter of
    the assembler and the constant of common.h, neither of which is part of
    src/. *)
Class CarrierExternals (E : Externals) : Type := {
  getNumBitsSinceSyncLost : BlockStream -> Z;
  kBitsPerSecond : spec_float
}.

(** [Channel::getSecondsSinceCarrierLost] *)
Definition getSecondsSinceCarrierLost {E : Externals}
    {CE : CarrierExternals E} (c : Channel) : spec_float :=
  F32.div (F32.of_Z (getNumBitsSinceSyncLost (block_stream_ c)))
          kBitsPerSecond.

Module Inputs.
Import Doubles.

(** A system clock that moves forward. *)
Definition E_forward : Externals := doubles [] empty_group [3; 5; 7].

Definition c_forward : Channel (E := E_forward) :=
  Channel_new (opts true false JSON) 0 [].


(** The counter of the scripted assembler: the bits still in the script.
    The bit rate is the float 1187.5. *)
Definition carrier_each : CarrierExternals E_each :=
  {| getNumBitsSinceSyncLost :=
       fun s : @BlockStream E_each => Z.of_nat (List.length (script s));
     kBitsPerSecond := binary_normalize F32.prec F32.emax 2375 (-1) false |}.

(** A channel that computes the error rate and prints through the
    station. *)
Definition c_idle_bler : Channel (E := E_idle) :=
  Channel_new (opts false true JSON) 0 [].



(** Two groups ready at the first bit, in Hex mode. *)
Definition c_burst_hex : Channel (E := E_burst) :=
  Channel_new (opts false false Hex) 0 [].

End Inputs.

(** ** Properties *)

Section Proofs.
Context {E : Externals}.

(** *** What the Group setters leave alone *)

Lemma hasTime_setTime (g : Group) (t : time_point) :
  hasTime (setTime g t) = true.
Proof. reflexivity. Qed.

Lemma getRxTime_setTime (g : Group) (t : time_point) :
  getRxTime (setTime g t) = t.
Proof. reflexivity. Qed.

Lemma getRxTime_setAverageBLER (g : Group) (x : spec_float) :
  getRxTime (setAverageBLER g x) = getRxTime g.
Proof. reflexivity. Qed.

(** *** The statements of processGroup, one by one *)

Ltac by_cases :=
  repeat match goal with
         | |- context [if ?b then _ else _] => destruct b
         | |- context [let (_, _) := ?p in _] => destruct p
         | |- context [match ?r with ChangeConfirmed => _ | _ => _ end] =>
             destruct r
         end;
  simpl; try reflexivity.

Lemma stampTime_timed (g : Group) (c : Channel) :
  hasTime g = true -> stampTime g c = (g, c).
Proof.
  intros Ht. unfold stampTime. rewrite Ht, andb_false_r. reflexivity.
Qed.

Lemma stampTime_off (g : Group) (c : Channel) :
  timestamp (options_ c) = false -> stampTime g c = (g, c).
Proof. intros Hoff. unfold stampTime. rewrite Hoff. reflexivity. Qed.

(** Stamping touches the watermark and the clock only, and in the group the
    receive time only. *)
Lemma stampTime_frame (g : Group) (c : Channel) :
  let c' := snd (stampTime g c) in
  options_ c' = options_ c /\ which_channel_ c' = which_channel_ c /\
  output_stream_ c' = output_stream_ c /\
  block_stream_ c' = block_stream_ c /\ station_ c' = station_ c /\
  cached_pi_ c' = cached_pi_ c /\ bler_average_ c' = bler_average_ c.
Proof. unfold stampTime. by_cases; repeat split. Qed.

Lemma stampTime_payload (g : Group) (c : Channel) :
  let g' := fst (stampTime g c) in
  blocks g' = blocks g /\ num_errors g' = num_errors g /\ pi g' = pi g /\
  bler_annotation g' = bler_annotation g.
Proof. unfold stampTime. by_cases; repeat split. Qed.

(** The error-rate statement touches the averager only, and in the group
    the annotation only. *)
Lemma averageBLER_frame (g : Group) (c : Channel) :
  let c' := snd (averageBLER g c) in
  options_ c' = options_ c /\ which_channel_ c' = which_channel_ c /\
  output_stream_ c' = output_stream_ c /\
  block_stream_ c' = block_stream_ c /\ station_ c' = station_ c /\
  cached_pi_ c' = cached_pi_ c /\
  last_group_rx_time_ c' = last_group_rx_time_ c /\
  clock_reads c' = clock_reads c.
Proof. unfold averageBLER. by_cases; repeat split. Qed.

Lemma averageBLER_payload (g : Group) (c : Channel) :
  let g' := fst (averageBLER g c) in
  blocks g' = blocks g /\ num_errors g' = num_errors g /\ pi g' = pi g /\
  time_received g' = time_received g.
Proof. unfold averageBLER. by_cases; repeat split. Qed.

(** The PI statement touches the tracker and the station only. *)
Lemma confirmPI_frame (g : Group) (c : Channel) :
  let c' := confirmPI g c in
  options_ c' = options_ c /\ which_channel_ c' = which_channel_ c /\
  output_stream_ c' = output_stream_ c /\
  block_stream_ c' = block_stream_ c /\
  bler_average_ c' = bler_average_ c /\
  last_group_rx_time_ c' = last_group_rx_time_ c /\
  clock_reads c' = clock_reads c.
Proof. unfold confirmPI. by_cases; repeat split. Qed.

(** The output statement touches the stream and the station only. *)
Lemma route_frame (g : Group) (c : Channel) :
  let c' := route g c in
  options_ c' = options_ c /\ which_channel_ c' = which_channel_ c /\
  block_stream_ c' = block_stream_ c /\ cached_pi_ c' = cached_pi_ c /\
  bler_average_ c' = bler_average_ c /\
  last_group_rx_time_ c' = last_group_rx_time_ c /\
  clock_reads c' = clock_reads c.
Proof. unfold route. by_cases; repeat split. Qed.

(** processGroup is the output statement run on [routedGroup] in
    [preRoute], and [preRoute] is the PI statement run in [preConfirm]. *)
Lemma processGroup_route (g : Group) (c : Channel) :
  processGroup g c = route (routedGroup g c) (preRoute g c).
Proof.
  unfold processGroup, routedGroup, preRoute.
  destruct (stampTime g c) as [g1 c1].
  destruct (averageBLER g1 c1) as [g2 c2]. reflexivity.
Qed.

Lemma preRoute_confirmPI (g : Group) (c : Channel) :
  preRoute g c = confirmPI (routedGroup g c) (preConfirm g c).
Proof.
  unfold routedGroup, preRoute, preConfirm.
  destruct (stampTime g c) as [g1 c1].
  destruct (averageBLER g1 c1) as [g2 c2]. reflexivity.
Qed.

Lemma routedGroup_payload (g : Group) (c : Channel) :
  blocks (routedGroup g c) = blocks g /\
  num_errors (routedGroup g c) = num_errors g /\
  pi (routedGroup g c) = pi g.
Proof.
  unfold routedGroup.
  pose proof (stampTime_payload g c) as Hs.
  destruct (stampTime g c) as [g1 c1]. simpl in Hs.
  pose proof (averageBLER_payload g1 c1) as Ha. simpl in Ha.
  destruct Hs as (Hb & Hn & Hp & _). destruct Ha as (Hb' & Hn' & Hp' & _).
  repeat split; congruence.
Qed.

Lemma routedGroup_isEmpty (g : Group) (c : Channel) :
  isEmpty (routedGroup g c) = isEmpty g.
Proof.
  unfold isEmpty. destruct (routedGroup_payload g c) as (Hb & _).
  rewrite Hb. reflexivity.
Qed.

Lemma routedGroup_hasPI (g : Group) (c : Channel) :
  hasPI (routedGroup g c) = hasPI g /\ getPI (routedGroup g c) = getPI g.
Proof.
  unfold hasPI, getPI. destruct (routedGroup_payload g c) as (_ & _ & Hp).
  rewrite Hp. split; reflexivity.
Qed.

Lemma routedGroup_timed (g : Group) (c : Channel) :
  hasTime g = true -> getRxTime (routedGroup g c) = getRxTime g.
Proof.
  intros Ht. unfold routedGroup. rewrite (stampTime_timed g c Ht).
  unfold getRxTime.
  destruct (averageBLER_payload g c) as (_ & _ & _ & Hr). rewrite Hr.
  reflexivity.
Qed.

Lemma preConfirm_frame (g : Group) (c : Channel) :
  let c' := preConfirm g c in
  options_ c' = options_ c /\ which_channel_ c' = which_channel_ c /\
  output_stream_ c' = output_stream_ c /\
  block_stream_ c' = block_stream_ c /\ station_ c' = station_ c /\
  cached_pi_ c' = cached_pi_ c.
Proof.
  unfold preConfirm.
  pose proof (stampTime_frame g c) as Hs.
  destruct (stampTime g c) as [g1 c1]. simpl in Hs.
  pose proof (averageBLER_frame g1 c1) as Ha. simpl in Ha. simpl.
  destruct Hs as (H1 & H2 & H3 & H4 & H5 & H6 & _).
  destruct Ha as (A1 & A2 & A3 & A4 & A5 & A6 & _).
  repeat split; congruence.
Qed.

Lemma preRoute_frame (g : Group) (c : Channel) :
  let c' := preRoute g c in
  options_ c' = options_ c /\ which_channel_ c' = which_channel_ c /\
  output_stream_ c' = output_stream_ c /\
  block_stream_ c' = block_stream_ c.
Proof.
  simpl. rewrite preRoute_confirmPI.
  pose proof (confirmPI_frame (routedGroup g c) (preConfirm g c)) as Hc.
  pose proof (preConfirm_frame g c) as Hp. simpl in Hc, Hp.
  destruct Hc as (C1 & C2 & C3 & C4 & _).
  destruct Hp as (P1 & P2 & P3 & P4 & _).
  repeat split; congruence.
Qed.

(** *** The PI statement *)

(** C6. During processGroup the tracker is consulted only for a group that
    carries a PI code.  When it is consulted and answers ChangeConfirmed, the
    station is replaced by a new Station constructed from the options, the
    channel index and the code the tracker now reports; when it answers
    SpuriousChange or NoChange, or when the group carries no PI code, the
    station is the one the channel had, and the statement changes nothing
    but the tracker. *)
Theorem processGroup_identity_step (g : Group) (c : Channel) :
  let r := CachedPI_update (cached_pi_ c) (getPI g) in
  processGroup g c = route (routedGroup g c) (preRoute g c) /\
  (hasPI g = false ->
     preRoute g c = preConfirm g c /\
     cached_pi_ (preRoute g c) = cached_pi_ c /\
     station_ (preRoute g c) = station_ c) /\
  (hasPI g = true -> fst r = ChangeConfirmed ->
     preRoute g c =
       set_station (set_cached_pi (preConfirm g c) (snd r))
         (Station_new_pi (options_ c) (which_channel_ c)
                         (CachedPI_get (snd r))) /\
     cached_pi_ (preRoute g c) = snd r /\
     station_ (preRoute g c) =
       Station_new_pi (options_ c) (which_channel_ c)
                      (CachedPI_get (snd r))) /\
  (hasPI g = true -> fst r <> ChangeConfirmed ->
     preRoute g c = set_cached_pi (preConfirm g c) (snd r) /\
     cached_pi_ (preRoute g c) = snd r /\
     station_ (preRoute g c) = station_ c).
Proof.
  intros r. split; [apply processGroup_route|].
  rewrite preRoute_confirmPI.
  destruct (routedGroup_hasPI g c) as (Hh & Hg).
  destruct (preConfirm_frame g c) as (Ho & Hw & _ & _ & Hs & Hp).
  unfold confirmPI. rewrite Hh, Hg, Hp. fold r.
  split; [|split].
  - intros Hpi. rewrite Hpi. auto.
  - intros Hpi Hr. rewrite Hpi.
    destruct r as [res cached]. simpl in Hr. subst res. simpl.
    rewrite Ho, Hw. auto.
  - intros Hpi Hr. rewrite Hpi.
    destruct r as [res cached]. simpl in Hr. simpl.
    destruct res; try contradiction; simpl; auto.
Qed.

(** *** The testing constructor *)

(** C7. The constructor that takes a PI code leaves the tracker in the state
    a new tracker reaches after being fed that code twice; nothing has been
    read from the clock or written to the stream, and the station is the one
    constructed with that code. *)
Theorem Channel_new_pi_seeds_tracker (options : Options) (out : ostream)
    (code : Z) :
  let c := Channel_new_pi options out code in
  cached_pi_ c = observeAll [code; code] CachedPI_new /\
  cached_pi_ c =
    snd (CachedPI_update (snd (CachedPI_update CachedPI_new code)) code) /\
  station_ c = Station_new_pi options 0 code /\
  block_stream_ c = BlockStream_new options /\
  bler_average_ c = RunningAverage_new /\
  output_stream_ c = out /\ clock_reads c = O.
Proof. simpl. repeat split. Qed.

(** *** The error-rate statement *)

(** C10. With error-rate computation enabled, processGroup pushes the
    group's error count divided by 4 (in float arithmetic) into the averager,
    once, whatever the group is, and annotates the group with 100 times the
    average the averager then reports: it is the annotated group that the
    PI statement and the output statement of processGroup are run on. *)
Theorem processGroup_bler (g : Group) (c : Channel) :
  bler (options_ c) = true ->
  let pushed :=
    push (bler_average_ c)
         (F32.div (F32.of_Z (getNumErrors g)) (F32.of_Z 4)) in
  let annotated :=
    setAverageBLER (fst (stampTime g c))
                   (F32.mul (F32.of_Z 100) (getAverage pushed)) in
  bler_average_ (processGroup g c) = pushed /\
  processGroup g c =
    route annotated
          (confirmPI annotated
                     (set_bler_average (snd (stampTime g c)) pushed)) /\
  routedGroup g c = annotated /\
  bler_annotation (routedGroup g c) =
    Some (F32.mul (F32.of_Z 100) (getAverage pushed)).
Proof.
  intros Hb pushed annotated.
  assert (Hsteps :
            averageBLER (fst (stampTime g c)) (snd (stampTime g c)) =
            (annotated, set_bler_average (snd (stampTime g c)) pushed)).
  { pose proof (stampTime_frame g c) as Hs.
    pose proof (stampTime_payload g c) as Hg.
    unfold annotated, pushed.
    destruct (stampTime g c) as [g1 c1]. simpl in Hs, Hg. simpl fst.
    simpl snd.
    destruct Hs as (Ho & _ & _ & _ & _ & _ & Ha).
    destruct Hg as (_ & Hn & _).
    unfold averageBLER. rewrite Ho, Hb. unfold getNumErrors.
    rewrite Ha, Hn. reflexivity. }
  assert (Hrouted : routedGroup g c = annotated).
  { unfold routedGroup. destruct (stampTime g c) as [g1 c1].
    simpl in Hsteps. rewrite Hsteps. reflexivity. }
  assert (Hrun : processGroup g c =
                 route annotated
                   (confirmPI annotated
                      (set_bler_average (snd (stampTime g c)) pushed))).
  { unfold processGroup. destruct (stampTime g c) as [g1 c1].
    simpl in Hsteps. rewrite Hsteps. reflexivity. }
  split; [|split; [exact Hrun | split; [exact Hrouted|]]].
  - rewrite Hrun.
    destruct (route_frame annotated
                (confirmPI annotated
                   (set_bler_average (snd (stampTime g c)) pushed)))
      as (_ & _ & _ & _ & Hr & _).
    destruct (confirmPI_frame annotated
                (set_bler_average (snd (stampTime g c)) pushed))
      as (_ & _ & _ & _ & Hc & _).
    rewrite Hr, Hc. reflexivity.
  - rewrite Hrouted. reflexivity.
Qed.

(** *** The output statement *)

Lemma written_app (o1 o2 : ostream) :
  written (o1 ++ o2) = (written o1 ++ written o2)%string.
Proof.
  induction o1 as [|op o1 IH]; simpl; [reflexivity|].
  destruct op; [|exact IH].
  rewrite IH. clear IH. induction s as [|a s IHs]; simpl; congruence.
Qed.

Lemma processGroup_block_stream (g : Group) (c : Channel) :
  block_stream_ (processGroup g c) = block_stream_ c.
Proof.
  rewrite processGroup_route.
  destruct (route_frame (routedGroup g c) (preRoute g c))
    as (_ & _ & Hb & _).
  destruct (preRoute_frame g c) as (_ & _ & _ & Hb').
  congruence.
Qed.

(** C8. In Hex mode a non-empty group appends to the stream: the text of
    printHex; with time stamps enabled, one space and the formatted receive
    time; a newline; and a flush.  With time stamps disabled the line is the
    hex text and the newline only. *)
Theorem processGroup_hex_line (g : Group) (c : Channel) :
  output_type (options_ c) = Hex ->
  isEmpty g = false ->
  let g' := routedGroup g c in
  let time_text :=
    getTimePointString (getRxTime g') (time_format (options_ c)) in
  output_stream_ (processGroup g c) =
    output_stream_ c ++
    Put (printHex g') ::
    (if timestamp (options_ c) then [Put " "%string; Put time_text] else [])
    ++ [Put newline; Flush] /\
  written (output_stream_ (processGroup g c)) =
    (written (output_stream_ c) ++ printHex g' ++
     (if timestamp (options_ c) then " " ++ time_text else EmptyString) ++
     newline)%string.
Proof.
  intros Hhex Hne g' time_text.
  assert (Hout : output_stream_ (processGroup g c) =
    output_stream_ c ++
    Put (printHex g') ::
    (if timestamp (options_ c) then [Put " "%string; Put time_text] else [])
    ++ [Put newline; Flush]).
  { rewrite processGroup_route. fold g'.
    destruct (preRoute_frame g c) as (Ho & _ & Hs & _).
    unfold route. rewrite Ho, Hhex. simpl.
    unfold g'. rewrite routedGroup_isEmpty, Hne. simpl. rewrite Ho.
    destruct (timestamp (options_ c)); simpl; rewrite ?Ho, Hs;
      rewrite <- ?app_assoc; reflexivity. }
  split; [exact Hout|].
  rewrite Hout, written_app.
  destruct (timestamp (options_ c)); simpl; reflexivity.
Qed.

(** C4, as the code has it.  In Hex mode an empty group writes nothing and
    is not given to the station: processGroup ends in the state it had when
    it reached the output statement.  In any other mode every group, empty
    or not, is given to the station's updateAndPrint, unchanged in its
    emptiness, and the results of that call become the channel's station
    and stream.  Only flush keeps an empty group from processGroup. *)
Theorem processGroup_empty_group (g : Group) (c : Channel) :
  let pending := fst (flushCurrentGroup (block_stream_ c)) in
  let flushed :=
    set_block_stream c (snd (flushCurrentGroup (block_stream_ c))) in
  isEmpty (routedGroup g c) = isEmpty g /\
  (output_type (options_ c) = Hex -> isEmpty g = true ->
     processGroup g c = preRoute g c /\
     station_ (processGroup g c) = station_ (preRoute g c) /\
     output_stream_ (processGroup g c) = output_stream_ c) /\
  (output_type (options_ c) <> Hex ->
     let r := updateAndPrint (station_ (preRoute g c)) (routedGroup g c)
                             (output_stream_ c) in
     processGroup g c =
       set_output_stream (set_station (preRoute g c) (fst r)) (snd r) /\
     station_ (processGroup g c) = fst r /\
     output_stream_ (processGroup g c) = snd r) /\
  (isEmpty pending = true -> flush c = flushed) /\
  (isEmpty pending = false -> flush c = processGroup pending flushed).
Proof.
  intros pending flushed.
  destruct (preRoute_frame g c) as (Ho & _ & Hs & _).
  split; [apply routedGroup_isEmpty|]. split; [|split; [|split]].
  - intros Hhex Hem. rewrite processGroup_route. unfold route.
    rewrite Ho, Hhex, routedGroup_isEmpty, Hem. simpl. auto.
  - intros Hother r. rewrite processGroup_route. unfold route.
    rewrite Ho. destruct (output_type (options_ c)); [contradiction|].
    simpl. unfold r. rewrite Hs.
    destruct (updateAndPrint _ _ _). simpl. auto.
  - unfold pending, flushed, flush.
    destruct (flushCurrentGroup (block_stream_ c)) as [p bs]. simpl.
    intros Hp. rewrite Hp. reflexivity.
  - unfold pending, flushed, flush.
    destruct (flushCurrentGroup (block_stream_ c)) as [p bs]. simpl.
    intros Hp. rewrite Hp. reflexivity.
Qed.

(** *** flush and processBit *)

(** C5. flush takes the pending group from the assembler and, when the group
    is not empty, runs processGroup on it, once; when it is empty nothing
    but the assembler changes: no output, no tracker update, no error-rate
    update, and the station is not touched. *)
Theorem flush_pending_group (c : Channel) :
  let g := fst (flushCurrentGroup (block_stream_ c)) in
  let c1 := set_block_stream c (snd (flushCurrentGroup (block_stream_ c))) in
  (isEmpty g = false -> flush c = processGroup g c1) /\
  (isEmpty g = true ->
     flush c = c1 /\
     output_stream_ (flush c) = output_stream_ c /\
     cached_pi_ (flush c) = cached_pi_ c /\
     bler_average_ (flush c) = bler_average_ c /\
     station_ (flush c) = station_ c /\
     last_group_rx_time_ (flush c) = last_group_rx_time_ c /\
     clock_reads (flush c) = clock_reads c).
Proof.
  unfold flush. destruct (flushCurrentGroup (block_stream_ c)) as [g bs].
  simpl. split; intros Hg; rewrite Hg; simpl; auto 10.
Qed.

(** C9. processBit pushes the bit into the assembler once.  When the
    assembler then reports no group ready, nothing else happens; when it
    reports one, a single group is popped and processGroup runs on it once,
    and the assembler is left as that one pop left it, whether or not it
    still has groups ready. *)
Theorem processBit_single_group (bit : bool) (c : Channel) :
  let pushed := pushBit (block_stream_ c) bit in
  (hasGroupReady pushed = false ->
     processBit bit c = set_block_stream c pushed) /\
  (hasGroupReady pushed = true ->
     processBit bit c =
       processGroup (fst (popGroup pushed))
                    (set_block_stream c (snd (popGroup pushed)))) /\
  block_stream_ (processBit bit c) =
    (if hasGroupReady pushed then snd (popGroup pushed) else pushed).
Proof.
  unfold processBit. simpl.
  destruct (hasGroupReady (pushBit (block_stream_ c) bit)).
  - destruct (popGroup (pushBit (block_stream_ c) bit)) as [g bs]. simpl.
    repeat split; try discriminate.
    rewrite processGroup_block_stream. reflexivity.
  - repeat split; discriminate.
Qed.

(** *** processBits *)

Lemma clamp_time_max (t w : time_point) : clamp_time t w = Z.max t w.
Proof. unfold clamp_time. destruct (Z.ltb_spec t w); lia. Qed.

(** An iteration in which no group becomes ready only pushes the bit. *)
Lemma processBits_iter_idle (buffer : BitBuffer) (i_bit : nat) (bit : bool)
    (c : Channel) :
  hasGroupReady (pushBit (block_stream_ c) bit) = false ->
  processBits_iter buffer i_bit bit c =
    set_block_stream c (pushBit (block_stream_ c) bit).
Proof. intros Hr. unfold processBits_iter. simpl. rewrite Hr. reflexivity. Qed.

(** An iteration in which a group becomes ready: the group is given the
    clamped time, processed, and the clamped time is stored as watermark. *)
Lemma processBits_iter_ready (buffer : BitBuffer) (i_bit : nat) (bit : bool)
    (c : Channel) :
  let pushed := pushBit (block_stream_ c) bit in
  let t := clamp_time (group_time buffer i_bit) (last_group_rx_time_ c) in
  hasGroupReady pushed = true ->
  processBits_iter buffer i_bit bit c =
    set_last_group_rx_time
      (processGroup (setTime (fst (popGroup pushed)) t)
                    (set_block_stream c (snd (popGroup pushed)))) t.
Proof.
  intros pushed t Hr. unfold processBits_iter. simpl. fold pushed.
  rewrite Hr. destruct (popGroup pushed) as [g bs]. reflexivity.
Qed.

(** The group carries the time it was given up to the output statement:
    processGroup does not stamp a group that has a time. *)
Lemma routedGroup_setTime (g : Group) (t : time_point) (c : Channel) :
  getRxTime (routedGroup (setTime g t) c) = t.
Proof. rewrite routedGroup_timed; reflexivity. Qed.

Lemma processBits_iter_watermark (buffer : BitBuffer) (i_bit : nat)
    (bit : bool) (c : Channel) :
  last_group_rx_time_ (processBits_iter buffer i_bit bit c) =
    if hasGroupReady (pushBit (block_stream_ c) bit)
    then clamp_time (group_time buffer i_bit) (last_group_rx_time_ c)
    else last_group_rx_time_ c.
Proof.
  destruct (hasGroupReady (pushBit (block_stream_ c) bit)) eqn:Hr.
  - rewrite processBits_iter_ready by exact Hr. reflexivity.
  - rewrite processBits_iter_idle by exact Hr. reflexivity.
Qed.

Lemma last_default_irrelevant (x : time_point) (l : list time_point)
    (d d' : time_point) :
  last (x :: l) d = last (x :: l) d'.
Proof.
  revert x. induction l as [|y l IH]; intros x; [reflexivity|].
  change (last (y :: l) d = last (y :: l) d'). apply IH.
Qed.

Lemma last_app_cons (l1 : list time_point) (x : time_point)
    (l2 : list time_point) (d : time_point) :
  last (l1 ++ x :: l2) d = last (x :: l2) (last l1 d).
Proof.
  induction l1 as [|y l1 IH].
  - simpl app. apply last_default_irrelevant.
  - change (last ((y :: l1) ++ x :: l2) d) with (last (y :: l1 ++ x :: l2) d).
    destruct l1 as [|z l1]; [simpl; apply last_default_irrelevant|].
    change (last (z :: l1 ++ x :: l2) d =
            last (x :: l2) (last (y :: z :: l1) d)).
    rewrite (last_default_irrelevant x l2 (last (y :: z :: l1) d)
                                     (last (z :: l1) d)).
    exact IH.
Qed.

Lemma clamped_chain_app (w : time_point)
    (l1 l2 : list (time_point * time_point)) :
  clamped_chain w (l1 ++ l2) <->
  clamped_chain w l1 /\ clamped_chain (last_carried w l1) l2.
Proof.
  revert w. induction l1 as [|[t e] l1 IH]; intros w.
  - simpl. tauto.
  - change (clamped_chain w (((t, e) :: l1) ++ l2))
      with (e = clamp_time t w /\ clamped_chain e (l1 ++ l2)).
    rewrite IH.
    assert (Hl : last_carried w ((t, e) :: l1) = last_carried e l1).
    { unfold last_carried. simpl map.
      destruct (map snd l1) as [|x l]; [reflexivity|].
      change (last (x :: l) w = last (x :: l) e).
      apply last_default_irrelevant. }
    rewrite Hl. simpl. tauto.
Qed.

(** One call of the loop: the groups form a chain that starts at the
    watermark, and the watermark ends at the time of the last group. *)
Lemma bitsEmitted_chain (buffer : BitBuffer) (rest : list bool) :
  forall (i_bit : nat) (c : Channel),
    clamped_chain (last_group_rx_time_ c) (bitsEmitted buffer i_bit rest c) /\
    last_group_rx_time_ (processBits_loop buffer i_bit rest c) =
      last_carried (last_group_rx_time_ c) (bitsEmitted buffer i_bit rest c).
Proof.
  induction rest as [|bit rest IH]; intros i_bit c.
  - simpl. split; [exact I | reflexivity].
  - destruct (IH (S i_bit) (processBits_iter buffer i_bit bit c))
      as [Hchain Hlast].
    rewrite processBits_iter_watermark in Hchain, Hlast.
    simpl. destruct (hasGroupReady (pushBit (block_stream_ c) bit)).
    + rewrite routedGroup_setTime. split.
      * simpl. split; [reflexivity | exact Hchain].
      * rewrite Hlast. unfold last_carried. simpl map.
        destruct (map snd _) as [|x l]; [reflexivity|].
        symmetry.
        change (last (x :: l) (last_group_rx_time_ c) =
                last (x :: l)
                     (clamp_time (group_time buffer i_bit)
                                 (last_group_rx_time_ c))).
        apply last_default_irrelevant.
    + split; assumption.
Qed.

Lemma buffersEmitted_chain (buffers : list BitBuffer) :
  forall c : Channel,
    clamped_chain (last_group_rx_time_ c) (buffersEmitted buffers c) /\
    last_group_rx_time_ (processBuffers buffers c) =
      last_carried (last_group_rx_time_ c) (buffersEmitted buffers c).
Proof.
  induction buffers as [|b rest IH]; intros c.
  - simpl. split; [exact I | reflexivity].
  - destruct (IH (processBits b c)) as [Hchain Hlast].
    destruct (bitsEmitted_chain b (bits b) O c) as [Hb Hw].
    fold (processBits b c) in Hw. rewrite Hw in Hchain, Hlast.
    simpl. split.
    + apply clamped_chain_app. split; assumption.
    + rewrite Hlast. unfold last_carried. rewrite map_app.
      destruct (map snd (buffersEmitted rest (processBits b c))) as [|x l].
      * rewrite app_nil_r. reflexivity.
      * symmetry. apply last_app_cons.
Qed.


Lemma backdate_floor_from_sound (n : nat) :
  forall k : Z,
    backdate_floor_from k n = true ->
    forall j : Z, k <= j < k + Z.of_nat n -> backdate_ms j = 16 * j / 19.
Proof.
  induction n as [|n IH]; intros k Hall j Hj.
  - lia.
  - cbn [backdate_floor_from] in Hall. apply andb_true_iff in Hall.
    destruct Hall as [Hk Hrest].
    destruct (Z.eq_dec j k) as [->|Hne].
    + apply Z.eqb_eq. exact Hk.
    + apply (IH (k + 1) Hrest). lia.
Qed.

(** The comparison, run for every offset below 19019. *)
Lemma backdate_floor_range : backdate_floor_from 0 floor_range = true.
Proof. vm_compute. reflexivity. Qed.

Lemma backdate_ms_floor (k : Z) :
  0 <= k < 19019 -> backdate_ms k = 16 * k / 19.
Proof.
  intros Hk. apply (backdate_floor_from_sound floor_range 0).
  - exact backdate_floor_range.
  - assert (Hb : Z.of_nat floor_range = 19019) by (vm_compute; reflexivity).
    rewrite Hb. lia.
Qed.

(** From 19019 bits on the double product can fall below the exact
    quotient, and the truncation then loses a millisecond. *)
Example backdate_ms_19019 :
  backdate_ms 19019 = 16015 /\ 16 * 19019 / 19 = 16016.
Proof. split; vm_compute; reflexivity. Qed.

(** C2, as the code has it.  A group that completes at bit offset i of a
    buffer of N bits received at T is given the time
    T - backdate_ms (N - 1 - i) milliseconds, or the watermark if that is
    later, and is processed with it.  backdate_ms is the double value of
    (N - 1 - i) / 1187.5 * 1e3 with its fraction dropped: the whole
    milliseconds of 16 (N - 1 - i) / 19 for fewer than 19019 bits.  For the
    last bit of a buffer nothing is subtracted from T. *)
Theorem processBits_group_time (buffer : BitBuffer) (i_bit : nat)
    (bit : bool) (c : Channel) :
  let pushed := pushBit (block_stream_ c) bit in
  let k := Z.of_nat (List.length (bits buffer)) - 1 - Z.of_nat i_bit in
  let t := buffer_time_received buffer - backdate_ms k * ticks_per_ms in
  let e := Z.max t (last_group_rx_time_ c) in
  let c1 := set_block_stream c (snd (popGroup pushed)) in
  hasGroupReady pushed = true ->
  processBits_iter buffer i_bit bit c =
    set_last_group_rx_time
      (processGroup (setTime (fst (popGroup pushed)) e) c1) e /\
  getRxTime (routedGroup (setTime (fst (popGroup pushed)) e) c1) = e /\
  (0 <= k < 19019 -> backdate_ms k = 16 * k / 19) /\
  (k = 0 -> t = buffer_time_received buffer) /\
  (k = 0 -> last_group_rx_time_ c <= buffer_time_received buffer ->
   e = buffer_time_received buffer).
Proof.
  intros pushed k t e c1 Hr.
  assert (H0 : k = 0 -> t = buffer_time_received buffer).
  { intros Hk. unfold t. rewrite Hk.
    change (backdate_ms 0) with 0. lia. }
  split; [|split; [|split; [|split]]].
  - rewrite processBits_iter_ready by exact Hr.
    rewrite clamp_time_max. reflexivity.
  - apply routedGroup_setTime.
  - apply backdate_ms_floor.
  - exact H0.
  - intros Hk Hle. unfold e. rewrite (H0 Hk). lia.
Qed.

(** *** Time stamps assigned by processGroup *)

(** What lines 87-97 do to a group without receive time when time stamps are
    enabled: the group gets the later of the clock reading and the
    watermark, but the watermark is set to the clock reading itself. *)
Lemma stampTime_untimed (g : Group) (c : Channel) :
  timestamp (options_ c) = true ->
  hasTime g = false ->
  let now := system_clock_now (clock_reads c) in
  getRxTime (fst (stampTime g c)) = Z.max now (last_group_rx_time_ c) /\
  last_group_rx_time_ (snd (stampTime g c)) = now.
Proof.
  intros Hts Hnt now. unfold stampTime. rewrite Hts, Hnt.
  cbn [andb negb tick_clock last_group_rx_time_ fst snd]. fold now.
  destruct (Z.ltb_spec now (last_group_rx_time_ c));
    cbn [fst snd set_last_group_rx_time last_group_rx_time_];
    rewrite getRxTime_setTime; split; try reflexivity; lia.
Qed.

End Proofs.

(** ** The model on concrete inputs *)

Import Doubles.

(** C1.  Three groups without receive time, time stamps enabled, and a
    system clock that reads 10, 5 and 7: the groups reach the station with
    the receive times 10, 10 and 7.  The second group is held to 10, but the
    watermark is set to the reading 5, so the third group is emitted with 7,
    earlier than the group before it. *)
Theorem processGroup_times_regress :
  let groups := [group_b; group_b; group_b] in
  forallb (fun g => negb (hasTime g)) groups = true /\
  timestamp (options_ c_clock) = true /\
  emittedTimes groups c_clock = [10; 10; 7] /\
  seen_times (station_ (processGroups groups c_clock)) = [10; 10; 7] /\
  last_group_rx_time_ (processGroups [group_b; group_b] c_clock) = 5 /\
  nondecreasing (emittedTimes groups c_clock) = false.
Proof. vm_compute. repeat split. Qed.

(** C2 does not hold as stated.  With a tick of one nanosecond, a group
    that completes at offset 0 of a buffer of 2 bits received at 5 s is
    emitted with the time 5 s, not 5 s - 1/1187.5 s; and a group that
    completes in a buffer of one bit received at 5 s, after a group that
    was emitted with the time 9 s, is emitted with 9 s, not 5 s. *)
Lemma processBits_group_time_not_exact :
  (bitsEmitted buffer_two 0 (bits buffer_two) c_first =
     [(5000000000, 5000000000)] /\
   ~ Qeq (seconds (E := E_first) 5000000000)
         (backdated_seconds (E := E_first) buffer_two 0)) /\
  (map bits buffers_back = [[true]; [true]] /\
   map buffer_time_received buffers_back = [9000000000; 5000000000] /\
   map snd (buffersEmitted buffers_back c_each) = [9000000000; 9000000000]).
Proof.
  split; [split|].
  - vm_compute. reflexivity.
  - intros Heq. vm_compute in Heq. discriminate Heq.
  - vm_compute. repeat split.
Qed.

Lemma processBits_group_time_witness :
  last_group_rx_time_ (processBits_iter buffer_two 0 true c_first) =
    5000000000 /\
  backdate_ms 1 = 0.
Proof.
  destruct (processBits_group_time buffer_two 0 true c_first eq_refl)
    as (Hiter & _ & Hfloor & _).
  split.
  - rewrite Hiter. reflexivity.
  - apply Hfloor. vm_compute. split; [discriminate | reflexivity].
Defined.


(** C4 does not hold as stated: outside Hex mode an empty group is given to
    the station, which here records it and prints. *)
Lemma empty_group_reaches_station :
  isEmpty empty_group = true /\
  output_type (options_ c_idle) = JSON /\
  seen (station_ (processGroup empty_group c_idle)) = [empty_group] /\
  output_stream_ (processGroup empty_group c_idle) =
    [Put "{}"%string; Put newline].
Proof. vm_compute. repeat split. Qed.

Lemma processGroup_empty_group_witness :
  (processGroup empty_group c_clock_hex = preRoute empty_group c_clock_hex /\
   output_stream_ (processGroup empty_group c_clock_hex) = []) /\
  seen (station_ (processGroup group_b c_idle)) = [group_b] /\
  flush c_idle = set_block_stream c_idle (snd (scripted_flush
                                                 (block_stream_ c_idle))).
Proof.
  split; [|split].
  - destruct (proj1 (proj2 (processGroup_empty_group empty_group
                              c_clock_hex)) eq_refl eq_refl)
      as (Hstate & _ & Hout).
    split; assumption.
  - destruct (proj1 (proj2 (proj2 (processGroup_empty_group group_b
                                     c_idle))))
      as (_ & Hst & _); [discriminate|].
    rewrite Hst. reflexivity.
  - exact (proj1 (proj2 (proj2 (proj2 (processGroup_empty_group group_b
                                         c_idle)))) eq_refl).
Defined.

Lemma flush_pending_group_witness :
  seen (station_ (flush c_pending)) = [group_b] /\
  output_stream_ (flush c_idle) = [] /\
  seen (station_ (flush c_idle)) = [].
Proof.
  split; [|split].
  - rewrite (proj1 (flush_pending_group c_pending) eq_refl). reflexivity.
  - exact (proj1 (proj2 (proj2 (flush_pending_group c_idle) eq_refl))).
  - destruct (proj2 (flush_pending_group c_idle) eq_refl)
      as (_ & _ & _ & _ & Hst & _).
    rewrite Hst. reflexivity.
Defined.

Lemma processGroup_identity_step_witness :
  CachedPI_get (cached_pi_ c_seeded) = 111 /\
  seen (station_ c_seeded) = [group_222] /\
  station_ (preRoute group_222 c_seeded) = mkStation (Some 222) [].
Proof.
  split; [reflexivity | split; [reflexivity|]].
  destruct (proj1 (proj2 (proj2
              (processGroup_identity_step group_222 c_seeded)))
              eq_refl eq_refl) as (_ & _ & Hst).
  rewrite Hst. reflexivity.
Defined.

(** The testing constructor with the recording tracker: the code has been
    observed twice and is the confirmed one. *)
Example Channel_new_pi_recorded :
  let c := Channel_new_pi (E := E_idle) (opts false false JSON) [] 111 in
  observed (cached_pi_ c) = [111; 111] /\ CachedPI_get (cached_pi_ c) = 111.
Proof. vm_compute. split; reflexivity. Qed.

Lemma processGroup_hex_line_witness :
  written (output_stream_ (processGroup group_b c_clock_hex)) =
    ("0000 0000 0000 0000 <time>" ++ newline)%string /\
  last (output_stream_ (processGroup group_b c_clock_hex)) (Put newline) =
    Flush.
Proof.
  destruct (processGroup_hex_line group_b c_clock_hex eq_refl eq_refl)
    as (Hout & Htext).
  split.
  - rewrite Htext. reflexivity.
  - rewrite Hout. reflexivity.
Defined.

Lemma processBit_single_group_witness :
  hasGroupReady (block_stream_ (processBit true c_burst)) = true /\
  ready (block_stream_ (processBit true c_burst)) = [group_b].
Proof.
  rewrite (proj2 (proj2 (processBit_single_group true c_burst))).
  split; reflexivity.
Defined.

(** With two groups ready after one bit, the station has been given one. *)
Example processBit_burst_station :
  seen (station_ (processBit true c_burst)) = [group_a] /\
  observed (cached_pi_ (processBit true c_burst)) = [25000].
Proof. vm_compute. split; reflexivity. Qed.

Lemma processGroup_bler_witness :
  bler_average_ (processGroup group_a c_clock_bler) =
    [S754_finite false 8388608 (-24)] /\
  bler_average_ (processGroup empty_group c_clock_bler) =
    [S754_zero false] /\
  map bler_annotation
      (seen (station_ (processGroup group_a Inputs.c_idle_bler))) =
    [Some (S754_finite false 13107200 (-18))].
Proof.
  split; [|split].
  - rewrite (proj1 (processGroup_bler group_a c_clock_bler eq_refl)).
    reflexivity.
  - rewrite (proj1 (processGroup_bler empty_group c_clock_bler eq_refl)).
    reflexivity.
  - rewrite (proj1 (proj2 (processGroup_bler group_a Inputs.c_idle_bler
                             eq_refl))).
    reflexivity.
Defined.

(** ** Properties of runs and of the remaining member functions *)

Section RunProofs.
Context {E : Externals}.

(** *** What one call of processGroup does to each member *)

Lemma stampTime_clock (g : Group) (c : Channel) :
  clock_reads (snd (stampTime g c)) =
    if timestamp (options_ c) && untimed g
    then S (clock_reads c) else clock_reads c.
Proof.
  unfold stampTime, untimed.
  destruct (timestamp (options_ c) && negb (hasTime g)); reflexivity.
Qed.


(** After the stamping statement nothing in processGroup touches the
    configuration, the watermark or the clock. *)
Lemma processGroup_after_stamp (g : Group) (c : Channel) :
  options_ (processGroup g c) = options_ c /\
  which_channel_ (processGroup g c) = which_channel_ c /\
  last_group_rx_time_ (processGroup g c) =
    last_group_rx_time_ (snd (stampTime g c)) /\
  clock_reads (processGroup g c) = clock_reads (snd (stampTime g c)).
Proof.
  unfold processGroup.
  pose proof (stampTime_frame g c) as Hs.
  destruct (stampTime g c) as [g1 c1]. simpl in Hs.
  pose proof (averageBLER_frame g1 c1) as Ha.
  destruct (averageBLER g1 c1) as [g2 c2]. simpl in Ha.
  pose proof (confirmPI_frame g2 c2) as Hc.
  pose proof (route_frame g2 (confirmPI g2 c2)) as Hr.
  simpl in Hc, Hr. simpl.
  destruct Hs as (S1 & S2 & _).
  destruct Ha as (A1 & A2 & _ & _ & _ & _ & A7 & A8).
  destruct Hc as (C1 & C2 & _ & _ & _ & C6 & C7).
  destruct Hr as (R1 & R2 & _ & _ & _ & R6 & R7).
  repeat split; congruence.
Qed.

Lemma processGroup_cached_pi (g : Group) (c : Channel) :
  cached_pi_ (processGroup g c) =
    if hasPI g then snd (CachedPI_update (cached_pi_ c) (getPI g))
    else cached_pi_ c.
Proof.
  rewrite processGroup_route.
  destruct (route_frame (routedGroup g c) (preRoute g c))
    as (_ & _ & _ & Hr & _).
  rewrite Hr, preRoute_confirmPI.
  destruct (routedGroup_hasPI g c) as (Hh & Hg).
  destruct (preConfirm_frame g c) as (_ & _ & _ & _ & _ & Hp).
  unfold confirmPI. rewrite Hh, Hg, Hp.
  destruct (hasPI g); [|exact Hp].
  destruct (CachedPI_update (cached_pi_ c) (getPI g)) as [res cached].
  destruct res; reflexivity.
Qed.

Lemma processGroup_bler_average (g : Group) (c : Channel) :
  bler_average_ (processGroup g c) =
    if bler (options_ c) then push (bler_average_ c) (blockErrorRate g)
    else bler_average_ c.
Proof.
  rewrite processGroup_route.
  destruct (route_frame (routedGroup g c) (preRoute g c))
    as (_ & _ & _ & _ & Hr & _).
  rewrite Hr, preRoute_confirmPI.
  destruct (confirmPI_frame (routedGroup g c) (preConfirm g c))
    as (_ & _ & _ & _ & Hc & _).
  rewrite Hc. unfold preConfirm.
  pose proof (stampTime_frame g c) as Hs.
  pose proof (stampTime_payload g c) as Hg.
  destruct (stampTime g c) as [g1 c1]. simpl in Hs, Hg.
  destruct Hs as (Ho & _ & _ & _ & _ & _ & Ha).
  destruct Hg as (_ & Hn & _).
  unfold averageBLER. rewrite Ho.
  destruct (bler (options_ c)); simpl;
    unfold blockErrorRate, getNumErrors; rewrite ?Ha, ?Hn; reflexivity.
Qed.

Lemma routedGroup_time (g : Group) (c : Channel) :
  time_received (routedGroup g c) = time_received (fst (stampTime g c)).
Proof.
  unfold routedGroup. destruct (stampTime g c) as [g1 c1].
  destruct (averageBLER_payload g1 c1) as (_ & _ & _ & Ht). exact Ht.
Qed.

(** *** Time stamps *)

Lemma processGroup_stamps_untimed_aux (g : Group) (c : Channel) :
  timestamp (options_ c) = true ->
  hasTime g = false ->
  time_received (routedGroup g c) =
    Some (Z.max (system_clock_now (clock_reads c)) (last_group_rx_time_ c)) /\
  last_group_rx_time_ (processGroup g c) =
    system_clock_now (clock_reads c) /\
  clock_reads (processGroup g c) = S (clock_reads c).
Proof.
  intros Hts Hnt. split; [|split].
  - rewrite routedGroup_time. unfold stampTime. rewrite Hts, Hnt.
    cbn [andb negb tick_clock last_group_rx_time_ fst].
    destruct (Z.ltb_spec (system_clock_now (clock_reads c))
                         (last_group_rx_time_ c));
      cbn [setTime time_received]; f_equal; lia.
  - destruct (processGroup_after_stamp g c) as (_ & _ & Hl & _).
    rewrite Hl. apply (stampTime_untimed g c Hts Hnt).
  - destruct (processGroup_after_stamp g c) as (_ & _ & _ & Hc).
    rewrite Hc, stampTime_clock. unfold untimed. rewrite Hts, Hnt.
    reflexivity.
Qed.

(** A group without receive time, time stamps enabled: the stamped group,
    and processGroup as the PI statement and the output statement run on
    it. *)
Lemma processGroup_untimed_steps (g : Group) (c : Channel) :
  timestamp (options_ c) = true ->
  hasTime g = false ->
  let now := system_clock_now (clock_reads c) in
  let stamped := setTime g (Z.max now (last_group_rx_time_ c)) in
  let c1 := snd (stampTime g c) in
  let routed := fst (averageBLER stamped c1) in
  fst (stampTime g c) = stamped /\
  processGroup g c =
    route routed (confirmPI routed (snd (averageBLER stamped c1))) /\
  time_received routed =
    Some (Z.max now (last_group_rx_time_ c)).
Proof.
  intros Hts Hnt now stamped c1 routed.
  assert (Hst : fst (stampTime g c) = stamped).
  { unfold stamped, now, stampTime. rewrite Hts, Hnt.
    cbn [andb negb tick_clock last_group_rx_time_ fst].
    destruct (Z.ltb_spec (system_clock_now (clock_reads c))
                         (last_group_rx_time_ c)).
    - rewrite Z.max_r by lia. reflexivity.
    - rewrite Z.max_l by lia. reflexivity. }
  split; [exact Hst|]. split.
  - subst routed c1 stamped now. rewrite <- Hst.
    unfold processGroup.
    destruct (stampTime g c) as [g1 c'']. cbn [fst snd].
    destruct (averageBLER g1 c'') as [g2 c2]. reflexivity.
  - unfold routed.
    destruct (averageBLER_payload stamped c1) as (_ & _ & _ & Ht).
    rewrite Ht. reflexivity.
Qed.

(** X1. With time stamps enabled, a group that arrives without receive time
    is given the later of the clock reading and the watermark, and it is
    with this time that it goes through the PI statement and the output
    statement of processGroup; the clock has been read once. *)
Theorem processGroup_stamps_untimed (g : Group) (c : Channel) :
  timestamp (options_ c) = true ->
  hasTime g = false ->
  let now := system_clock_now (clock_reads c) in
  let stamped := setTime g (Z.max now (last_group_rx_time_ c)) in
  let c1 := snd (stampTime g c) in
  let routed := fst (averageBLER stamped c1) in
  processGroup g c =
    route routed (confirmPI routed (snd (averageBLER stamped c1))) /\
  time_received routed = Some (Z.max now (last_group_rx_time_ c)) /\
  routedGroup g c = routed /\
  time_received (routedGroup g c) =
    Some (Z.max now (last_group_rx_time_ c)) /\
  clock_reads (processGroup g c) = S (clock_reads c).
Proof.
  intros Hts Hnt now stamped c1 routed.
  destruct (processGroup_untimed_steps g c Hts Hnt) as (Hst & Hrun & Ht).
  destruct (processGroup_stamps_untimed_aux g c Hts Hnt) as (Ht' & _ & Hc).
  split; [exact Hrun|]. split; [exact Ht|]. split; [|split; assumption].
  subst routed c1 stamped now. rewrite <- Hst.
  unfold routedGroup.
  destruct (stampTime g c) as [g1 c'']. reflexivity.
Qed.


Lemma processGroups_options (groups : list Group) :
  forall c : Channel, options_ (processGroups groups c) = options_ c.
Proof.
  induction groups as [|g rest IH]; intros c; [reflexivity|].
  simpl. rewrite IH. apply processGroup_after_stamp.
Qed.

(** X3. Over a run of processGroup the clock is read once for every group
    that arrives without receive time when time stamps are enabled, and
    never when they are disabled. *)
Theorem processGroups_clock_reads (groups : list Group) (c : Channel) :
  clock_reads (processGroups groups c) =
    (clock_reads c +
     if timestamp (options_ c) then List.length (filter untimed groups)
     else 0)%nat.
Proof.
  revert c. induction groups as [|g rest IH]; intros c.
  - simpl. destruct (timestamp (options_ c)); lia.
  - simpl processGroups. rewrite IH.
    destruct (processGroup_after_stamp g c) as (Ho & _ & _ & Hc).
    rewrite Ho, Hc, stampTime_clock. simpl filter.
    destruct (timestamp (options_ c)); destruct (untimed g); simpl; lia.
Qed.

(** *** The tracker and the averager over a run *)

(** X4. After a run of processGroup the tracker is the one the channel had,
    fed the PI codes of the groups that carry one, in order.  Groups
    without PI code are not shown to it; the output mode, the time stamps
    and the emptiness of a group play no part. *)
Theorem processGroups_tracker (groups : list Group) (c : Channel) :
  cached_pi_ (processGroups groups c) =
    observeAll (piCodes groups) (cached_pi_ c).
Proof.
  revert c. induction groups as [|g rest IH]; intros c; [reflexivity|].
  simpl processGroups. rewrite IH, processGroup_cached_pi.
  unfold piCodes. simpl filter. destruct (hasPI g); reflexivity.
Qed.

(** X5. After a run of processGroup with error-rate computation enabled the
    averager has been pushed the error count over 4 of every group, in
    order; with it disabled the averager is the one the channel had. *)
Theorem processGroups_averager (groups : list Group) (c : Channel) :
  bler_average_ (processGroups groups c) =
    if bler (options_ c)
    then pushAll (map blockErrorRate groups) (bler_average_ c)
    else bler_average_ c.
Proof.
  revert c. induction groups as [|g rest IH]; intros c.
  - simpl. destruct (bler (options_ c)); reflexivity.
  - simpl processGroups. rewrite IH, processGroup_bler_average.
    destruct (processGroup_after_stamp g c) as (Ho & _).
    rewrite Ho. destruct (bler (options_ c)); reflexivity.
Qed.

(** *** A clock that moves forward *)

Lemma nondecreasing_cons (a : time_point) (l : list time_point) :
  nondecreasing (a :: l) =
    match l with
    | [] => true
    | b :: _ => (a <=? b) && nondecreasing l
    end.
Proof. destruct l; reflexivity. Qed.

Lemma nondecreasing_readings (n : nat) :
  forall k : nat,
    (forall i, (k <= i)%nat -> (S i < k + n)%nat ->
               system_clock_now i <= system_clock_now (S i)) ->
    nondecreasing (map system_clock_now (seq k n)) = true.
Proof.
  induction n as [|n IH]; intros k Hmono; [reflexivity|].
  simpl seq. simpl map. rewrite nondecreasing_cons.
  destruct n as [|n]; [reflexivity|].
  change (map system_clock_now (seq (S k) (S n)))
    with (system_clock_now (S k) :: map system_clock_now (seq (S (S k)) n)).
  change (system_clock_now (S k) :: map system_clock_now (seq (S (S k)) n))
    with (map system_clock_now (seq (S k) (S n))).
  apply andb_true_iff. split.
  - apply Z.leb_le. apply Hmono; lia.
  - apply IH. intros i Hi Hlt. apply Hmono; lia.
Qed.

Lemma emittedTimes_readings (groups : list Group) :
  forall c : Channel,
    timestamp (options_ c) = true ->
    forallb untimed groups = true ->
    last_group_rx_time_ c <= system_clock_now (clock_reads c) ->
    (forall i, (clock_reads c <= i)%nat ->
               (S i < clock_reads c + List.length groups)%nat ->
               system_clock_now i <= system_clock_now (S i)) ->
    emittedTimes groups c =
      map system_clock_now (seq (clock_reads c) (List.length groups)).
Proof.
  induction groups as [|g rest IH]; intros c Hts Hall Hw Hmono;
    [reflexivity|].
  simpl in Hall. apply andb_true_iff in Hall. destruct Hall as [Hg Hrest].
  assert (Hnt : hasTime g = false).
  { unfold untimed in Hg. destruct (hasTime g); [discriminate|reflexivity]. }
  destruct (processGroup_stamps_untimed_aux g c Hts Hnt) as (Ht & Hl & Hc).
  destruct (processGroup_after_stamp g c) as (Ho & _).
  simpl emittedTimes. simpl List.length. simpl seq. simpl map. f_equal.
  - unfold getRxTime. rewrite Ht. lia.
  - destruct rest as [|g' rest']; [reflexivity|].
    rewrite (IH (processGroup g c)); rewrite ?Ho, ?Hc, ?Hl; try assumption.
    + reflexivity.
    + apply Hmono; simpl; lia.
    + intros i Hi Hlt. apply Hmono; simpl in *; lia.
Qed.

Lemma forward_run_invariant (groups : list Group) :
  forall (c : Channel) (k : nat) (g : Group),
    timestamp (options_ c) = true ->
    forallb untimed groups = true ->
    last_group_rx_time_ c <= system_clock_now (clock_reads c) ->
    (forall i, (clock_reads c <= i)%nat ->
               (S i < clock_reads c + List.length groups)%nat ->
               system_clock_now i <= system_clock_now (S i)) ->
    nth_error groups k = Some g ->
    let ck := processGroups (firstn k groups) c in
    options_ ck = options_ c /\
    clock_reads ck = (clock_reads c + k)%nat /\
    last_group_rx_time_ ck <= system_clock_now (clock_reads ck) /\
    hasTime g = false.
Proof.
  induction groups as [|g0 rest IH]; intros c k g Hts Hall Hw Hmono Hnth.
  - destruct k; discriminate Hnth.
  - simpl in Hall. apply andb_true_iff in Hall. destruct Hall as [Hg0 Hrest].
    assert (Hnt0 : hasTime g0 = false).
    { unfold untimed in Hg0.
      destruct (hasTime g0); [discriminate|reflexivity]. }
    destruct k as [|k].
    + simpl in Hnth. injection Hnth as <-. simpl.
      repeat split; try assumption. lia.
    + simpl in Hnth.
      destruct (processGroup_stamps_untimed_aux g0 c Hts Hnt0)
        as (_ & Hl & Hc).
      destruct (processGroup_after_stamp g0 c) as (Ho & _).
      assert (Hlen : (1 <= List.length rest)%nat).
      { destruct rest; [destruct k; discriminate Hnth | simpl; lia]. }
      destruct (IH (processGroup g0 c) k g) as (Ho' & Hc' & Hw' & Hnt);
        rewrite ?Ho, ?Hc, ?Hl; try assumption.
      * apply Hmono; simpl; lia.
      * intros i Hi Hlt. apply Hmono; simpl in *; lia.
      * simpl firstn. simpl processGroups. cbv zeta.
        rewrite Ho', Hc', Ho, Hc. repeat split; try assumption.
        -- lia.
        -- rewrite Hc', Hc in Hw'. exact Hw'.
Qed.

(** X6. In a run of processGroup with time stamps enabled in which every
    group arrives without receive time: when the clock readings taken
    during the run do not go back, and the watermark is not ahead of the
    first of them, the k-th group is given exactly the k-th clock reading
    and goes through the PI statement and the output statement of
    processGroup with it, and the times so emitted do not decrease. *)
Theorem processGroups_forward_clock (groups : list Group) (c : Channel) :
  timestamp (options_ c) = true ->
  forallb untimed groups = true ->
  last_group_rx_time_ c <= system_clock_now (clock_reads c) ->
  (forall i, (clock_reads c <= i)%nat ->
             (S i < clock_reads c + List.length groups)%nat ->
             system_clock_now i <= system_clock_now (S i)) ->
  (forall (k : nat) (g : Group),
     nth_error groups k = Some g ->
     let ck := processGroups (firstn k groups) c in
     let stamped := setTime g (system_clock_now (clock_reads c + k)) in
     let routed := fst (averageBLER stamped (snd (stampTime g ck))) in
     processGroup g ck =
       route routed
             (confirmPI routed
                        (snd (averageBLER stamped (snd (stampTime g ck))))) /\
     time_received routed = Some (system_clock_now (clock_reads c + k))) /\
  emittedTimes groups c =
    map system_clock_now (seq (clock_reads c) (List.length groups)) /\
  nondecreasing
    (map system_clock_now (seq (clock_reads c) (List.length groups))) = true.
Proof.
  intros Hts Hall Hw Hmono. split; [|split].
  - intros k g Hnth ck stamped routed.
    destruct (forward_run_invariant groups c k g Hts Hall Hw Hmono Hnth)
      as (Ho & Hc & Hwk & Hnt).
    fold ck in Ho, Hc, Hwk.
    assert (Htsk : timestamp (options_ ck) = true) by (rewrite Ho; exact Hts).
    destruct (processGroup_untimed_steps g ck Htsk Hnt) as (_ & Hrun & Ht).
    rewrite Z.max_l in Hrun, Ht by lia.
    rewrite Hc in Hrun, Ht. split; assumption.
  - apply (emittedTimes_readings groups c Hts Hall Hw Hmono).
  - apply nondecreasing_readings. exact Hmono.
Qed.

(** *** processBits *)

(** What one iteration of processBits leaves alone. *)
Lemma processBits_iter_frame (buffer : BitBuffer) (i_bit : nat)
    (bit : bool) (c : Channel) :
  let c' := processBits_iter buffer i_bit bit c in
  options_ c' = options_ c /\ which_channel_ c' = which_channel_ c /\
  clock_reads c' = clock_reads c.
Proof.
  destruct (hasGroupReady (pushBit (block_stream_ c) bit)) eqn:Hr; simpl.
  - rewrite processBits_iter_ready by exact Hr.
    set (t := clamp_time _ _). set (g := fst _).
    set (c1 := set_block_stream _ _).
    destruct (processGroup_after_stamp (setTime g t) c1)
      as (Ho & Hw & _ & Hc).
    cbn [set_last_group_rx_time options_ which_channel_ clock_reads].
    rewrite Ho, Hw, Hc, stampTime_timed by reflexivity.
    repeat split.
  - rewrite processBits_iter_idle by exact Hr. repeat split.
Qed.

Lemma processBits_loop_frame (buffer : BitBuffer) (rest : list bool) :
  forall (i_bit : nat) (c : Channel),
    let c' := processBits_loop buffer i_bit rest c in
    options_ c' = options_ c /\ which_channel_ c' = which_channel_ c /\
    clock_reads c' = clock_reads c.
Proof.
  induction rest as [|bit rest IH]; intros i_bit c; simpl;
    [repeat split|].
  destruct (IH (S i_bit) (processBits_iter buffer i_bit bit c))
    as (Ho & Hw & Hc).
  destruct (processBits_iter_frame buffer i_bit bit c) as (Ho' & Hw' & Hc').
  simpl in Ho, Hw, Hc, Ho', Hw', Hc'. repeat split; congruence.
Qed.

(** X7. processBits never reads the system clock, whatever the options:
    every group it hands to processGroup has been given its time first. *)
Theorem processBuffers_clock_untouched (buffers : list BitBuffer)
    (c : Channel) :
  clock_reads (processBuffers buffers c) = clock_reads c.
Proof.
  revert c. induction buffers as [|b rest IH]; intros c; [reflexivity|].
  simpl. rewrite IH.
  apply (processBits_loop_frame b (bits b) O c).
Qed.

Lemma clamped_chain_running_max (l : list (time_point * time_point)) :
  forall w : time_point,
    clamped_chain w l ->
    last_carried w l = fold_left Z.max (map fst l) w /\
    w <= last_carried w l.
Proof.
  induction l as [|[t e] l IH]; intros w Hc.
  - unfold last_carried. simpl. split; [reflexivity | lia].
  - destruct Hc as [He Hc]. rewrite clamp_time_max in He.
    destruct (IH e Hc) as [Hfold Hle].
    assert (Hl : last_carried w ((t, e) :: l) = last_carried e l).
    { unfold last_carried. simpl map.
      destruct (map snd l) as [|x xs]; [reflexivity|].
      change (last (x :: xs) w = last (x :: xs) e).
      apply last_default_irrelevant. }
    rewrite Hl, Hfold. simpl. rewrite (Z.max_comm w t), <- He.
    split; [reflexivity|]. rewrite <- Hfold. lia.
Qed.

(** X8. Across processBits calls the watermark is the running maximum of
    the watermark the channel started with and the times computed for the
    groups handed to processGroup; in particular processBits never lowers
    it. *)
Theorem processBuffers_watermark (buffers : list BitBuffer) (c : Channel) :
  last_group_rx_time_ (processBuffers buffers c) =
    fold_left Z.max (map fst (buffersEmitted buffers c))
              (last_group_rx_time_ c) /\
  last_group_rx_time_ c <= last_group_rx_time_ (processBuffers buffers c).
Proof.
  destruct (buffersEmitted_chain buffers c) as [Hchain Hlast].
  destruct (clamped_chain_running_max _ _ Hchain) as [Hfold Hle].
  rewrite Hlast. split; assumption.
Qed.

(** X10. For a buffer of at most 19019 bits and a clock with a non-negative
    number of ticks per millisecond, the time computed for a group that
    completes at offset i is the buffer time less the whole milliseconds of
    16 (N - 1 - i) / 19; it is never later than the buffer time, is the
    buffer time itself at the last bit, and does not decrease with the bit
    offset. *)
Theorem group_time_bounds (buffer : BitBuffer) (i j : nat) :
  Z.of_nat (List.length (bits buffer)) <= 19019 ->
  0 <= ticks_per_ms ->
  (i <= j < List.length (bits buffer))%nat ->
  let N := Z.of_nat (List.length (bits buffer)) in
  group_time buffer i =
    buffer_time_received buffer
    - (16 * (N - 1 - Z.of_nat i) / 19) * ticks_per_ms /\
  group_time buffer i <= group_time buffer j /\
  group_time buffer j <= buffer_time_received buffer /\
  group_time buffer (List.length (bits buffer) - 1) =
    buffer_time_received buffer.
Proof.
  intros HN Hticks Hij N.
  assert (HNz : N <= 19019) by exact HN.
  assert (Hi : group_time buffer i =
               buffer_time_received buffer
               - (16 * (N - 1 - Z.of_nat i) / 19) * ticks_per_ms).
  { unfold group_time. fold N. rewrite backdate_ms_floor by lia.
    reflexivity. }
  assert (Hj : group_time buffer j =
               buffer_time_received buffer
               - (16 * (N - 1 - Z.of_nat j) / 19) * ticks_per_ms).
  { unfold group_time. fold N. rewrite backdate_ms_floor by lia.
    reflexivity. }
  assert (Hlast : group_time buffer (List.length (bits buffer) - 1) =
                  buffer_time_received buffer).
  { unfold group_time. fold N.
    replace (N - 1 - Z.of_nat (List.length (bits buffer) - 1)) with 0
      by (unfold N; lia).
    change (backdate_ms 0) with 0. lia. }
  assert (Hqj : 0 <= 16 * (N - 1 - Z.of_nat j) / 19)
    by (apply Z.div_pos; lia).
  assert (Hq : 16 * (N - 1 - Z.of_nat j) / 19
               <= 16 * (N - 1 - Z.of_nat i) / 19)
    by (apply Z.div_le_mono; lia).
  split; [exact Hi|]. split; [|split; [|exact Hlast]].
  - rewrite Hi, Hj. nia.
  - rewrite Hj. nia.
Qed.

(** *** Bits one by one and bits in a buffer *)

Lemma processGroup_samePipeline (g1 g2 : Group) (c1 c2 : Channel) :
  samePipeline c1 c2 ->
  pi g1 = pi g2 ->
  num_errors g1 = num_errors g2 ->
  samePipeline (processGroup g1 c1) (processGroup g2 c2).
Proof.
  intros (Ho & Hb & Hp & Ha) Hpi Hn. unfold samePipeline.
  destruct (processGroup_after_stamp g1 c1) as (Ho1 & _).
  destruct (processGroup_after_stamp g2 c2) as (Ho2 & _).
  rewrite !processGroup_block_stream, !processGroup_cached_pi,
    !processGroup_bler_average, Ho1, Ho2.
  unfold hasPI, getPI, blockErrorRate, getNumErrors.
  rewrite Ho, Hb, Hp, Ha, Hpi, Hn. repeat split.
Qed.

Lemma processBits_iter_samePipeline (buffer : BitBuffer) (i_bit : nat)
    (bit : bool) (c1 c2 : Channel) :
  samePipeline c1 c2 ->
  samePipeline (processBits_iter buffer i_bit bit c1) (processBit bit c2).
Proof.
  intros Hsame. pose proof Hsame as (Ho & Hb & Hp & Ha).
  destruct (hasGroupReady (pushBit (block_stream_ c1) bit)) eqn:Hr.
  - rewrite processBits_iter_ready by exact Hr.
    unfold processBit. cbn [set_block_stream block_stream_].
    rewrite <- Hb, Hr.
    destruct (popGroup (pushBit (block_stream_ c1) bit)) as [g bs].
    cbn [fst snd].
    set (t := clamp_time _ _).
    assert (Hpg : samePipeline
                    (processGroup (setTime g t) (set_block_stream c1 bs))
                    (processGroup g (set_block_stream c2 bs))).
    { apply processGroup_samePipeline; try reflexivity.
      unfold samePipeline. cbn. repeat split; assumption. }
    destruct Hpg as (Ho' & Hb' & Hp' & Ha').
    unfold samePipeline. cbn. repeat split; assumption.
  - rewrite processBits_iter_idle by exact Hr.
    unfold processBit. cbn [set_block_stream block_stream_].
    rewrite <- Hb, Hr. unfold samePipeline. cbn.
    repeat split; assumption.
Qed.

Lemma processBits_loop_samePipeline (buffer : BitBuffer)
    (rest : list bool) :
  forall (i_bit : nat) (c1 c2 : Channel),
    samePipeline c1 c2 ->
    samePipeline (processBits_loop buffer i_bit rest c1)
                 (processBitList rest c2).
Proof.
  induction rest as [|bit rest IH]; intros i_bit c1 c2 Hsame;
    [exact Hsame|].
  simpl. apply IH. apply processBits_iter_samePipeline. exact Hsame.
Qed.

(** X11. Feeding the bits of a buffer through processBits and feeding them
    one by one through processBit leave the channel with the same
    assembler, the same tracker and the same averager: the two ways of input
    differ in the time stamps of the groups only. *)
Theorem processBits_agrees_with_processBit (buffer : BitBuffer)
    (c : Channel) :
  block_stream_ (processBits buffer c) =
    block_stream_ (processBitList (bits buffer) c) /\
  cached_pi_ (processBits buffer c) =
    cached_pi_ (processBitList (bits buffer) c) /\
  bler_average_ (processBits buffer c) =
    bler_average_ (processBitList (bits buffer) c).
Proof.
  assert (Hsame : samePipeline c c) by (unfold samePipeline; auto).
  destruct (processBits_loop_samePipeline buffer (bits buffer) O c c Hsame)
    as (_ & Hb & Hp & Ha).
  unfold processBits. auto.
Qed.

(** *** Hex output over a run *)

Lemma route_hex (g : Group) (c : Channel) :
  output_type (options_ c) = Hex ->
  output_stream_ (route g c) =
    output_stream_ c ++
    (if nonEmpty g then hexLine (options_ c) g else []).
Proof.
  intros Hhex. unfold route, nonEmpty, hexLine. rewrite Hhex.
  cbn [OutputType_eqb].
  destruct (negb (isEmpty g)); [|rewrite app_nil_r; reflexivity].
  cbn [set_output_stream options_ output_stream_].
  destruct (timestamp (options_ c));
    cbn [set_output_stream options_ output_stream_];
    rewrite <- ?app_assoc; reflexivity.
Qed.

(** X12. In Hex mode a run of processGroup appends to the stream one line
    per group that is not empty, in order, each ended by a newline and a
    flush, and nothing for the empty groups. *)
Theorem processGroups_hex_output (groups : list Group) (c : Channel) :
  output_type (options_ c) = Hex ->
  output_stream_ (processGroups groups c) =
    output_stream_ c ++
    flat_map (hexLine (options_ c))
             (filter nonEmpty (routedGroups groups c)).
Proof.
  revert c. induction groups as [|g rest IH]; intros c Hhex.
  - simpl. rewrite app_nil_r. reflexivity.
  - destruct (processGroup_after_stamp g c) as (Ho & _).
    simpl processGroups. rewrite IH by (rewrite Ho; exact Hhex).
    rewrite Ho, processGroup_route.
    destruct (preRoute_frame g c) as (Hpo & _ & Hps & _).
    rewrite route_hex by (rewrite Hpo; exact Hhex).
    rewrite Hpo, Hps. simpl routedGroups. simpl filter.
    rewrite <- processGroup_route.
    destruct (nonEmpty (routedGroup g c)).
    + cbn [flat_map]. rewrite <- app_assoc. reflexivity.
    + rewrite app_nil_r. reflexivity.
Qed.

(** *** Hex output of processBits *)

Lemma countFlush_app (o1 o2 : ostream) :
  countFlush (o1 ++ o2) = (countFlush o1 + countFlush o2)%nat.
Proof.
  induction o1 as [|op o1 IH]; [reflexivity|].
  destruct op; simpl; rewrite IH; reflexivity.
Qed.

Lemma countFlush_hexLine (options : Options) (g : Group) :
  countFlush (hexLine options g) = 1%nat.
Proof. unfold hexLine. destruct (timestamp options); reflexivity. Qed.

Lemma processGroup_hex_flushes (g : Group) (c : Channel) :
  output_type (options_ c) = Hex ->
  (countFlush (output_stream_ (processGroup g c))
   <= countFlush (output_stream_ c) + 1)%nat.
Proof.
  intros Hhex. rewrite processGroup_route.
  destruct (preRoute_frame g c) as (Hpo & _ & Hps & _).
  rewrite route_hex by (rewrite Hpo; exact Hhex).
  rewrite countFlush_app, Hps.
  destruct (nonEmpty (routedGroup g c));
    [rewrite countFlush_hexLine | simpl]; lia.
Qed.

Lemma processBits_loop_hex_flushes (buffer : BitBuffer) (rest : list bool) :
  forall (i_bit : nat) (c : Channel),
    output_type (options_ c) = Hex ->
    (countFlush (output_stream_ (processBits_loop buffer i_bit rest c))
     <= countFlush (output_stream_ c) + List.length rest)%nat.
Proof.
  induction rest as [|bit rest IH]; intros i_bit c Hhex; [simpl; lia|].
  destruct (processBits_iter_frame buffer i_bit bit c) as (Ho & _).
  simpl in Ho. simpl processBits_loop.
  specialize (IH (S i_bit) (processBits_iter buffer i_bit bit c)).
  rewrite Ho in IH. specialize (IH Hhex).
  assert (Hstep :
            (countFlush
               (output_stream_ (processBits_iter buffer i_bit bit c))
             <= countFlush (output_stream_ c) + 1)%nat).
  { destruct (hasGroupReady (pushBit (block_stream_ c) bit)) eqn:Hr.
    - rewrite processBits_iter_ready by exact Hr.
      cbn [set_last_group_rx_time output_stream_].
      apply (processGroup_hex_flushes _
               (set_block_stream c
                  (snd (popGroup (pushBit (block_stream_ c) bit))))).
      exact Hhex.
    - rewrite processBits_iter_idle by exact Hr. simpl. lia. }
  simpl List.length. lia.
Qed.

(** X9. In Hex mode, over any sequence of processBits calls, the output
    stream is flushed at most once per bit received: at most one group per
    bit is processed, however many groups the assembler has ready. *)
Theorem processBuffers_hex_flushes_bounded (buffers : list BitBuffer)
    (c : Channel) :
  output_type (options_ c) = Hex ->
  (countFlush (output_stream_ (processBuffers buffers c))
   <= countFlush (output_stream_ c)
      + List.length (List.concat (map bits buffers)))%nat.
Proof.
  revert c. induction buffers as [|b rest IH]; intros c Hhex; [simpl; lia|].
  destruct (processBits_loop_frame b (bits b) O c) as (Ho & _).
  simpl in Ho. fold (processBits b c) in Ho.
  pose proof (processBits_loop_hex_flushes b (bits b) O c Hhex) as Hb.
  fold (processBits b c) in Hb.
  specialize (IH (processBits b c)). rewrite Ho in IH. specialize (IH Hhex).
  simpl processBuffers. simpl map. simpl List.concat. rewrite length_app.
  lia.
Qed.

(** *** Configuration *)

(** X13. No member function changes the options or the channel index. *)
Theorem configuration_unchanged (g : Group) (bit : bool)
    (buffer : BitBuffer) (c : Channel) :
  let same (c' : Channel) :=
    options_ c' = options_ c /\ which_channel_ c' = which_channel_ c in
  same (processGroup g c) /\ same (processBit bit c) /\
  same (processBits buffer c) /\ same (flush c) /\ same (resetPI c).
Proof.
  intros same. unfold same.
  assert (Hg : forall g' c', options_ (processGroup g' c') = options_ c' /\
                             which_channel_ (processGroup g' c') =
                               which_channel_ c').
  { intros g' c'. destruct (processGroup_after_stamp g' c') as (H1 & H2 & _).
    split; assumption. }
  split; [apply Hg|]. split; [|split; [|split]].
  - unfold processBit. cbn [set_block_stream block_stream_].
    destruct (hasGroupReady _); [|split; reflexivity].
    destruct (popGroup _) as [g' bs]. rewrite !(proj1 (Hg _ _)).
    rewrite !(proj2 (Hg _ _)). split; reflexivity.
  - destruct (processBits_loop_frame buffer (bits buffer) O c)
      as (H1 & H2 & _).
    split; assumption.
  - unfold flush. destruct (flushCurrentGroup _) as [g' bs].
    cbn [set_block_stream]. destruct (negb (isEmpty g'));
      [|split; reflexivity].
    rewrite !(proj1 (Hg _ _)). rewrite !(proj2 (Hg _ _)).
    split; reflexivity.
  - split; reflexivity.
Qed.

End RunProofs.

(** *** Seconds since the carrier was lost *)

(** X14. getSecondsSinceCarrierLost is computed from the assembler alone, so
    processGroup and resetPI do not change it; and it is zero when the
    assembler has counted no bit since synchronisation was lost, for any
    finite positive bit rate. *)
Theorem getSecondsSinceCarrierLost_assembler {E : Externals}
    {CE : CarrierExternals E} (c : Channel) :
  (forall g : Group,
     getSecondsSinceCarrierLost (processGroup g c) =
     getSecondsSinceCarrierLost c) /\
  getSecondsSinceCarrierLost (resetPI c) = getSecondsSinceCarrierLost c /\
  (forall m e,
     getNumBitsSinceSyncLost (block_stream_ c) = 0 ->
     kBitsPerSecond = S754_finite false m e ->
     getSecondsSinceCarrierLost c = S754_zero false).
Proof.
  unfold getSecondsSinceCarrierLost. split; [|split].
  - intros g. rewrite processGroup_block_stream. reflexivity.
  - reflexivity.
  - intros m e Hzero Hrate. rewrite Hzero, Hrate. reflexivity.
Qed.

(** *** The run properties on concrete inputs *)

Import Inputs.

Lemma processGroup_stamps_untimed_witness :
  seen_times (station_ (processGroup group_b c_clock)) = [10] /\
  time_received (routedGroup group_b c_clock) = Some 10 /\
  clock_reads (processGroup group_b c_clock) = 1%nat.
Proof.
  destruct (processGroup_stamps_untimed group_b c_clock eq_refl eq_refl)
    as (Hrun & _ & _ & Ht & Hc).
  split; [|split; assumption].
  rewrite Hrun. reflexivity.
Defined.


Lemma processGroups_forward_clock_witness :
  emittedTimes [group_b; group_b; group_b] c_forward = [3; 5; 7] /\
  seen_times
    (station_ (processGroup group_b
                 (processGroups [group_b; group_b] c_forward))) = [3; 5; 7].
Proof.
  assert (Hw : last_group_rx_time_ c_forward
               <= system_clock_now (Externals := E_forward)
                                   (clock_reads c_forward))
    by (intros H; vm_compute in H; discriminate H).
  assert (Hmono : forall i, (clock_reads c_forward <= i)%nat ->
            (S i < clock_reads c_forward
                   + List.length [group_b; group_b; group_b])%nat ->
            system_clock_now (Externals := E_forward) i
            <= system_clock_now (Externals := E_forward) (S i)).
  { intros i Hi Hlt. change (clock_reads c_forward) with O in Hlt.
    destruct i as [|[|i]];
      [intros H; vm_compute in H; discriminate H ..|].
    simpl in Hlt. lia. }
  destruct (processGroups_forward_clock [group_b; group_b; group_b]
              c_forward eq_refl eq_refl Hw Hmono) as (Hk & He & _).
  split; [exact He|].
  destruct (Hk 2%nat group_b eq_refl) as (Hrun & _).
  simpl firstn in Hrun. rewrite Hrun. reflexivity.
Defined.

Lemma group_time_bounds_witness :
  group_time (E := E_first) buffer_two 0 = 5000000000 /\
  group_time (E := E_first) buffer_two 0
    <= group_time (E := E_first) buffer_two 1.
Proof.
  destruct (group_time_bounds (E := E_first) buffer_two 0 1)
    as (Hi & Hle & _).
  - simpl. lia.
  - simpl. lia.
  - simpl. lia.
  - split; [rewrite Hi; reflexivity | exact Hle].
Defined.

Lemma processGroups_hex_output_witness :
  written (output_stream_
             (processGroups [group_b; empty_group; group_b] c_clock_hex)) =
    ("0000 0000 0000 0000 <time>" ++ newline ++
     "0000 0000 0000 0000 <time>" ++ newline)%string.
Proof.
  rewrite (processGroups_hex_output [group_b; empty_group; group_b]
             c_clock_hex eq_refl).
  reflexivity.
Defined.

Lemma processBuffers_hex_flushes_bounded_witness :
  (countFlush (output_stream_
                 (processBuffers [mkBitBuffer [true] 0%Z] c_burst_hex))
   <= 1)%nat /\
  ready (block_stream_ (processBuffers [mkBitBuffer [true] 0%Z] c_burst_hex))
    = [group_b].
Proof.
  split; [|reflexivity].
  exact (processBuffers_hex_flushes_bounded [mkBitBuffer [true] 0%Z]
           c_burst_hex eq_refl).
Defined.

Lemma getSecondsSinceCarrierLost_assembler_witness :
  getNumBitsSinceSyncLost (CarrierExternals := carrier_each)
    (block_stream_ c_each) = 2 /\
  getSecondsSinceCarrierLost (CE := carrier_each)
    (processBuffers buffers_back c_each) = S754_zero false.
Proof.
  split; [reflexivity|].
  exact (proj2 (proj2 (getSecondsSinceCarrierLost_assembler
                         (CE := carrier_each)
                         (processBuffers buffers_back c_each)))
               9728000%positive (-13) eq_refl eq_refl).
Defined.

(** Bits one by one and bits in a buffer, with the recording doubles: the
    tracker and the averager have seen the same, the stations have not. *)
Example processBits_and_processBit_times :
  seen_times (station_ (processBits (mkBitBuffer [true] 9000000000) c_each))
    = [9000000000] /\
  seen_times (station_ (processBitList [true] c_each)) = [0].
Proof. vm_compute. split; reflexivity. Qed.
